(** * Stax Kitsu add-on: timeline synchronisation, status mapping and
      credential codec

    A shallow embedding of the Python sources
    - [python/blender_kitsu_utils/sequencer.py]
    - [python/stax_kitsu_ui/ops/ops_timeline.py]
    - [python/stax_kitsu_ui/ops/ops_session.py]
    - [python/stax_kitsu_ui/utils.py]
    with explicit state passing for the Blender data the code mutates and
    an explicit outcome type for Python exceptions. *)

From Stdlib Require Import ZArith Lia.
From stdpp Require Import gmap strings list.

Local Open Scope Z_scope.

(** ** Python run-time notions used by the sources *)

Module Py.

(** The exceptions the modelled code can raise, with their message. *)
Inductive exn : Type :=
| ValueError (msg : string)
| TypeError (msg : string)
| IndexError (msg : string)
| AttributeError (msg : string)
| NameError (name : string)
| OSError (msg : string)
| UnicodeEncodeError
| UnicodeDecodeError
| BinasciiError.

(** A call either returns a value or raises. *)
Inductive outcome (A : Type) : Type :=
| Returned (a : A)
| Raised (e : exn).
Global Arguments Returned {A} a.
Global Arguments Raised {A} e.

Definition is_raised {A} (o : outcome A) : bool :=
  match o with Raised _ => true | Returned _ => false end.

(** Dynamically typed values that end up as indices of the pending queue. *)
Inductive value : Type :=
| VNone
| VInt (z : Z)
| VStr (s : string).

(** Truth value of an [int]-or-[None] attribute: [None] and [0] are falsy. *)
Definition truthy_int (o : option Z) : bool :=
  match o with
  | Some z => negb (z =? 0)
  | None => false
  end.

(** Truth value of a [str]-or-[None] attribute: [None] and [""] are falsy. *)
Definition truthy_str (o : option string) : bool :=
  match o with
  | Some s => negb (String.eqb s "")
  | None => false
  end.

(** [str(x)] inside an f-string for a [str]-or-[None] value. *)
Definition format_opt (o : option string) : string :=
  match o with
  | Some s => s
  | None => "None"
  end.

(** [l[i]] for an [int] index: negative indices count from the end, an index
    out of range raises [IndexError]. *)
Definition getitem {A} (l : list A) (i : Z) : outcome A :=
  let n := Z.of_nat (length l) in
  let j := if i <? 0 then i + n else i in
  if (0 <=? j) && (j <? n) then
    match l !! Z.to_nat j with
    | Some x => Returned x
    | None => Raised (IndexError "list index out of range")
    end
  else Raised (IndexError "list index out of range").

(** [l[v]] for a dynamically typed index: only [int] is accepted. *)
Definition getitem_value {A} (l : list A) (v : value) : outcome A :=
  match v with
  | VInt i => getitem l i
  | VStr _ => Raised (TypeError "list indices must be integers or slices, not str")
  | VNone => Raised (TypeError "list indices must be integers or slices, not NoneType")
  end.

(** [l[i] = x]: an index past the end raises [IndexError]. *)
Definition setitem {A} (l : list A) (i : nat) (x : A) : outcome (list A) :=
  if decide (i < length l)%nat then Returned (<[i := x]> l)
  else Raised (IndexError "list assignment index out of range").

(** [x in l] for a [str]-or-[None] value and a collection of strings. *)
Definition contains (l : list string) (x : option string) : bool :=
  match x with
  | Some s => bool_decide (s ∈ l)
  | None => false
  end.

End Py.

Import Py.

(** ** [blender_kitsu_utils/sequencer.py] *)

Module Sequencer.

Definition image_files_extensions : list string :=
  [ ".bmp"; ".cin"; ".dds"; ".dpx"; ".exr"; ".hdr"; ".j2c"; ".jp2"; ".jpeg";
    ".jpg"; ".pdd"; ".png"; ".psb"; ".psd"; ".rgb"; ".rgba"; ".sgi"; ".tga";
    ".tif"; ".tiff"; ".tx" ].

Definition sound_files_extensions : list string :=
  [ ".wav"; ".ogg"; ".oga"; ".mp3"; ".mp2"; ".ac3"; ".aac"; ".flac"; ".wma";
    ".eac3"; ".aif"; ".aiff"; ".m4a"; ".mka" ].

(** *** Tracker entities, as far as the code reads them *)

(** A Kitsu shot: [kitsu_shot.name], [kitsu_shot.get('code')] and
    [kitsu_shot.duration] ([None] when the cut duration is not set). *)
Record kitsu_shot : Type := {
  shot_name : string;
  shot_code : option string;
  shot_duration : option Z
}.

(** A Kitsu version: an identifier, [kitsu_version.movie_path] and
    [kitsu_version.status]. *)
Record kitsu_version : Type := {
  version_id : string;
  movie_path : option string;
  status : option string
}.

(** A Kitsu note, as [edit_review] reads it. *)
Record kitsu_note : Type := {
  note_id : string;
  note_parent_id : option string;
  user_name : string;
  creation_date : string
}.

(** *** Blender data touched by the code *)

Inductive strip_type : Type := IMAGE | SOUND | MOVIE.

(** A strip created inside a shot stack, with the custom properties the
    add-on stores on it. *)
Record sequence : Type := {
  seq_name : string;
  seq_type : strip_type;
  seq_filepath : string;
  seq_channel : Z;
  seq_frame_start : Z;
  stax_media_info : bool;
  current_status : option string;
  seq_kitsu_version : option kitsu_version;
  seq_lock : bool;
  to_build_notes : bool
}.

(** A meta strip used as shot stack. *)
Record meta : Type := {
  meta_name : string;
  meta_channel : Z;
  frame_final_start : Z;
  frame_final_duration : Z;
  stax_meta_usage : option string;
  meta_kitsu_shot : option kitsu_shot;
  sequences : list sequence
}.

Definition frame_final_end (m : meta) : Z :=
  frame_final_start m + frame_final_duration m.

(** Operators of [bpy.ops.sequencer] and scene calls whose only modelled
    effect is that they happened. *)
Inductive host_event : Type :=
| ViewAll
| RefreshAll
| DeselectAll
| FrameSet (frame : Z).

(** The part of [bpy.data] / [bpy.context.scene] the code reads and writes:
    the strips of the sequence editor, the frame numbers of each layer of the
    ["Annotations"] grease pencil, the tracks, and the scene range. The code
    reads the frames of a layer only through their numbers and adds a frame
    by its number, so a layer is the set of its frame numbers. *)
Record blend_data : Type := {
  seq_ed : list meta;
  annotation_layers : list (gset Z);
  tracks : list string;
  frame_end : Z;
  frame_current : Z;
  host_log : list host_event
}.

Definition with_seq_ed (bd : blend_data) (ms : list meta) : blend_data :=
  {| seq_ed := ms; annotation_layers := annotation_layers bd;
     tracks := tracks bd; frame_end := frame_end bd;
     frame_current := frame_current bd; host_log := host_log bd |}.

Definition with_layers (bd : blend_data) (ls : list (gset Z)) : blend_data :=
  {| seq_ed := seq_ed bd; annotation_layers := ls;
     tracks := tracks bd; frame_end := frame_end bd;
     frame_current := frame_current bd; host_log := host_log bd |}.

Definition with_tracks (bd : blend_data) (ts : list string) : blend_data :=
  {| seq_ed := seq_ed bd; annotation_layers := annotation_layers bd;
     tracks := ts; frame_end := frame_end bd;
     frame_current := frame_current bd; host_log := host_log bd |}.

Definition with_frame_end (bd : blend_data) (z : Z) : blend_data :=
  {| seq_ed := seq_ed bd; annotation_layers := annotation_layers bd;
     tracks := tracks bd; frame_end := z;
     frame_current := frame_current bd; host_log := host_log bd |}.

Definition log_event (bd : blend_data) (e : host_event) : blend_data :=
  {| seq_ed := seq_ed bd; annotation_layers := annotation_layers bd;
     tracks := tracks bd; frame_end := frame_end bd;
     frame_current := frame_current bd; host_log := host_log bd ++ [e] |}.

(** [scene.frame_set(f)] *)
Definition frame_set (bd : blend_data) (f : Z) : blend_data :=
  {| seq_ed := seq_ed bd; annotation_layers := annotation_layers bd;
     tracks := tracks bd; frame_end := frame_end bd;
     frame_current := f; host_log := host_log bd ++ [FrameSet f] |}.

(** Every strip held by some shot stack of the sequence editor: the
    Version-containers of the timeline. *)
Definition version_containers (bd : blend_data) : list sequence :=
  concat (sequences <$> seq_ed bd).

(** *** OpenReviewIO objects built by the code *)

(** [orio.Status(state=..., author=...)] *)
Record Status : Type := { state : string; author : string }.

(** [orio.Content.*] *)
Inductive Content : Type :=
| ImageAnnotation (path_to_image : string) (frame duration : Z)
| TextAnnotation (body : string) (frame duration : Z)
| TextComment (body : string).

(** [orio.Note(author, date, contents, metadata, parent_note)] *)
#[local] Set Warnings "-register-all".
Inductive Note : Type :=
| MkNote (note_author note_date : string) (contents : list Content)
         (parent_note : option Note).
#[local] Set Warnings "+register-all".

(** [orio.MediaReview(media)] with its status and notes. *)
Record MediaReview : Type := {
  media : string;
  review_metadata : gmap string string;
  review_status : option Status;
  review_notes : list Note
}.

(** *** Names the sources use without defining them

    The sources call several functions that no file of the repository
    defines (they are marked [# TODO]); the file system and the host's strip
    constructors are outside the repository as well. They are taken as an
    interface. Names that are read but bound nowhere in the module
    ([attach_to_dl], [Process], the variables of the note loop of
    [edit_review]) are no part of it: reading them raises [NameError]. *)
Class Externals : Type := {
  (** [get_version_seq_name(kitsu_version)] *)
  get_version_seq_name : kitsu_version -> string;
  (** [download_movie_from_kitsu(kitsu_version)] *)
  download_movie_from_kitsu : kitsu_version -> option string;
  (** [get_kitsu_statuses()] *)
  get_kitsu_statuses : gmap string (list string);
  (** [is_user_authorized_to_review()] *)
  is_user_authorized_to_review : bool;
  (** [Path(p).is_file()] *)
  path_is_file : string -> bool;
  (** [Path(p).suffix.lower()] *)
  path_suffix_lower : string -> string;
  (** whether [sequences.new_image/new_sound/new_movie] hands back a strip
      for the given type, name, file path, channel and start frame *)
  host_new_strip : strip_type -> string -> string -> Z -> Z -> bool
}.

(** A path, by its components. *)
Definition path : Type := list string.

(** The file system as [build_reviews] reaches it through [pathlib]:
    [Path.is_dir()], and [Path.mkdir(parents=True)], which raises (an
    [OSError]) or returns, and leaves a file system behind either way. *)
Class FileSystem : Type := {
  fs : Type;
  is_dir : fs -> path -> bool;
  mkdir_parents : fs -> path -> outcome unit * fs
}.

(** [get_shot_seq_name]: [f"{kitsu_shot.name}_{task_name}"]. *)
Definition get_shot_seq_name (task_name : string) (shot : kitsu_shot) : string :=
  shot_name shot +:+ "_" +:+ task_name.

(** [layer.frames.new(n)] *)
Definition frames_new (layer : gset Z) (n : Z) : gset Z := {[ n ]} ∪ layer.

(** The loop of [create_shot_stack] over one annotation layer: the frame
    numbers are read once, then a frame is added at the start and at the
    end of the meta when the layer had none there. *)
Definition add_annotation_frames (m : meta) (layer : gset Z) : gset Z :=
  let layer_frames := layer in
  let layer1 :=
    if bool_decide (frame_final_start m ∈ layer_frames) then layer
    else frames_new layer (frame_final_start m) in
  if bool_decide (frame_final_end m ∈ layer_frames) then layer1
  else frames_new layer1 (frame_final_end m).

(** [create_shot_stack(channel_name, sequences_stack, kitsu_shot,
    channel_index, frame_start)]. Raises [ValueError] when the shot has no
    duration; otherwise appends a meta to the sequence editor and returns
    its position there. [frame_start] is [None] when the caller passes the
    accumulator after it was set to [None]; the host refuses it. *)
Definition create_shot_stack (channel_name : string) (bd : blend_data)
    (shot : kitsu_shot) (channel_index : Z) (frame_start : option Z)
  : outcome nat * blend_data :=
  let duration := shot_duration shot in
  if negb (truthy_int duration) then
    (Raised (ValueError ("Shot " +:+ format_opt (shot_code shot)
       +:+ ": 'duration' is None. Fix it in Kitsu before retrying to load.")), bd)
  else
    match frame_start, duration with
    | Some start, Some d =>
        let m := {| meta_name := get_shot_seq_name channel_name shot;
                    meta_channel := channel_index;
                    frame_final_start := start;
                    frame_final_duration := d;
                    stax_meta_usage := Some "Versions";
                    meta_kitsu_shot := Some shot;
                    sequences := [] |} in
        let bd1 := with_seq_ed bd (seq_ed bd ++ [m]) in
        let bd2 := with_layers bd1 (add_annotation_frames m <$> annotation_layers bd1) in
        (Returned (length (seq_ed bd)), bd2)
    | _, _ =>
        (Raised (TypeError "an integer is required (got type NoneType)"), bd)
    end.

(** *** Review status *)

(** [build_orio_status(available_statuses, version_status)].
    [available_statuses.get(k)] is [None] for a missing key, and
    [x in None] raises [TypeError]. *)
Definition build_orio_status (available_statuses : gmap string (list string))
    (version_status : option string) : outcome Status :=
  let approved_statuses := available_statuses !! "approved" in
  let rejected_statuses := available_statuses !! "rejected" in
  match rejected_statuses with
  | None => Raised (TypeError "argument of type 'NoneType' is not iterable")
  | Some rejected =>
      if contains rejected version_status then
        Returned {| state := "rejected"; author := "" |}
      else
        match approved_statuses with
        | None => Raised (TypeError "argument of type 'NoneType' is not iterable")
        | Some approved =>
            if contains approved version_status then
              Returned {| state := "approved"; author := "" |}
            else
              Returned {| state := "waiting review"; author := "" |}
        end
  end.

(** *** Version strips *)

Definition with_sequences (m : meta) (l : list sequence) : meta :=
  {| meta_name := meta_name m; meta_channel := meta_channel m;
     frame_final_start := frame_final_start m;
     frame_final_duration := frame_final_duration m;
     stax_meta_usage := stax_meta_usage m;
     meta_kitsu_shot := meta_kitsu_shot m;
     sequences := l |}.

(** The strip handed back by [sequences.new_image], [new_sound] or
    [new_movie]: it carries the requested name, path, channel and start
    frame and no custom property yet. *)
Definition new_strip (ty : strip_type) (name filepath : string)
    (channel frame_start : Z) : sequence :=
  {| seq_name := name; seq_type := ty; seq_filepath := filepath;
     seq_channel := channel; seq_frame_start := frame_start;
     stax_media_info := false; current_status := None;
     seq_kitsu_version := None; seq_lock := false;
     to_build_notes := false |}.

Definition set_stax_media_info (s : sequence) : sequence :=
  {| seq_name := seq_name s; seq_type := seq_type s;
     seq_filepath := seq_filepath s; seq_channel := seq_channel s;
     seq_frame_start := seq_frame_start s;
     stax_media_info := true; current_status := current_status s;
     seq_kitsu_version := seq_kitsu_version s; seq_lock := seq_lock s;
     to_build_notes := to_build_notes s |}.

Definition set_status_and_version (s : sequence) (st : string)
    (kv : kitsu_version) : sequence :=
  {| seq_name := seq_name s; seq_type := seq_type s;
     seq_filepath := seq_filepath s; seq_channel := seq_channel s;
     seq_frame_start := seq_frame_start s;
     stax_media_info := stax_media_info s; current_status := Some st;
     seq_kitsu_version := Some kv; seq_lock := seq_lock s;
     to_build_notes := to_build_notes s |}.

Definition set_lock_and_flag (s : sequence) (lock : bool) : sequence :=
  {| seq_name := seq_name s; seq_type := seq_type s;
     seq_filepath := seq_filepath s; seq_channel := seq_channel s;
     seq_frame_start := seq_frame_start s;
     stax_media_info := stax_media_info s;
     current_status := current_status s;
     seq_kitsu_version := seq_kitsu_version s; seq_lock := lock;
     to_build_notes := true |}.

(** The branch on the file suffix: image, sound, otherwise movie. *)
Definition strip_type_of_suffix (suffix : string) : strip_type :=
  if bool_decide (suffix ∈ image_files_extensions) then IMAGE
  else if bool_decide (suffix ∈ sound_files_extensions) then SOUND
  else MOVIE.

Section WithExternals.
Context `{Externals}.

(** The path the function goes on with, after the optional download. *)
Definition resolve_clip_path (kv : kitsu_version) (try_download : bool)
  : option string :=
  let version_clip_path := movie_path kv in
  if try_download then
    if negb (truthy_str version_clip_path)
       || (truthy_str version_clip_path
           && negb (path_is_file (format_opt version_clip_path)))
    then download_movie_from_kitsu kv
    else version_clip_path
  else version_clip_path.

(** [create_version_sequence(self, shot_stack, kitsu_version,
    channel_index=None, try_download=False)], on the shot stack it is
    given. The result is the position of the created strip in the stack,
    or [None] for each of the three bare [return]s. *)
Definition create_version_sequence {Self : Type} (self : Self)
    (shot_stack : meta) (kv : kitsu_version) (channel_index : option Z)
    (try_download : bool) : outcome (option nat) * meta :=
  let version_name := get_version_seq_name kv in
  let existing_versions := seq_name <$> sequences shot_stack in
  if bool_decide (version_name ∈ existing_versions)
     || bool_decide ("stax." +:+ version_name ∈ existing_versions)
  then (Returned None, shot_stack)
  else
    let version_clip_path := resolve_clip_path kv try_download in
    if negb (truthy_str version_clip_path) then (Returned None, shot_stack)
    else
      let path := format_opt version_clip_path in
      let channel :=
        match channel_index with
        | Some c => if c =? 0 then Z.of_nat (length (sequences shot_stack)) + 1 else c
        | None => Z.of_nat (length (sequences shot_stack)) + 1
        end in
      let frame_start := frame_final_start shot_stack in
      let ty := strip_type_of_suffix (path_suffix_lower path) in
      if negb (host_new_strip ty version_name path channel frame_start)
      then (Returned None, shot_stack)
      else
        let s := set_stax_media_info
                   (new_strip ty version_name path channel frame_start) in
        let created := length (sequences shot_stack) in
        match build_orio_status get_kitsu_statuses (status kv) with
        | Raised e =>
            (Raised e, with_sequences shot_stack (sequences shot_stack ++ [s]))
        | Returned st =>
            (Returned (Some created),
             with_sequences shot_stack
               (sequences shot_stack ++ [set_status_and_version s (state st) kv]))
        end.

(** Positional arguments as a call site passes them. *)
Inductive argument : Type :=
| ArgStack (ref : nat)
| ArgVersion (kv : kitsu_version)
| ArgInt (z : Z)
| ArgBool (b : bool)
| ArgNone.

(** Binding of positional arguments to the five parameters
    [self, shot_stack, kitsu_version, channel_index=None,
    try_download=False]: three are required, two have defaults. *)
Definition bind_create_version_sequence (args : list argument)
  : outcome (argument * argument * argument * argument * argument) :=
  match args with
  | [] =>
      Raised (TypeError "create_version_sequence() missing 3 required positional arguments: 'self', 'shot_stack', and 'kitsu_version'")
  | [_] =>
      Raised (TypeError "create_version_sequence() missing 2 required positional arguments: 'shot_stack' and 'kitsu_version'")
  | [_; _] =>
      Raised (TypeError "create_version_sequence() missing 1 required positional argument: 'kitsu_version'")
  | [a; b; c] => Returned (a, b, c, ArgNone, ArgBool false)
  | [a; b; c; d] => Returned (a, b, c, d, ArgBool false)
  | [a; b; c; d; e] => Returned (a, b, c, d, e)
  | _ =>
      Raised (TypeError "create_version_sequence() takes from 3 to 5 positional arguments")
  end.

(** A call of [create_version_sequence] with positional arguments, against the Blender data: the
    arguments are bound, then the body runs on the stack that
    [shot_stack] refers to. The result refers to the created strip by
    stack and position. *)
Definition call_create_version_sequence (args : list argument)
    (bd : blend_data) : outcome (option (nat * nat)) * blend_data :=
  match bind_create_version_sequence args with
  | Raised e => (Raised e, bd)
  | Returned (self, ArgStack ref, ArgVersion kv, channel_index, try_download) =>
      match seq_ed bd !! ref with
      | None => (Raised (AttributeError "shot_stack"), bd)
      | Some shot_stack =>
          let ci := match channel_index with ArgInt z => Some z | _ => None end in
          let td := match try_download with
                    | ArgBool b => b
                    | ArgNone => false
                    | ArgInt z => negb (z =? 0)
                    | _ => true
                    end in
          let '(r, m) := create_version_sequence self shot_stack kv ci td in
          (match r with
           | Raised e => Raised e
           | Returned None => Returned None
           | Returned (Some i) => Returned (Some (ref, i))
           end,
           with_seq_ed bd (<[ref := m]> (seq_ed bd)))
      end
  | Returned _ => (Raised (AttributeError "shot_stack.sequences"), bd)
  end.

(** *** Reviews *)

(** The note loop of [edit_review], for the list it iterates over. The first
    call of its body reads [drawing_on_transparent_bg], which nothing binds
    (nor [annot_start_frame], [body], [previously_created_orio_note] further
    down): a round of the loop raises [NameError] before a note is made. *)
Definition add_notes (kitsu_notes : list kitsu_note) (r : MediaReview)
  : outcome MediaReview :=
  match kitsu_notes with
  | [] => Returned r
  | _ :: _ => Raised (NameError "drawing_on_transparent_bg")
  end.

(** [edit_review(available_statuses, version)]. The list of notes it
    iterates over is the literal [[]] of the source. *)
Definition edit_review (available_statuses : gmap string (list string))
    (version : kitsu_version) : outcome (option MediaReview) :=
  let version_clip_path := movie_path version in
  if negb (truthy_str version_clip_path) then Returned None
  else
    let orio_review :=
      {| media := format_opt version_clip_path; review_metadata := ∅;
         review_status := None; review_notes := [] |} in
    let with_status :=
      match status version with
      | None => Returned orio_review
      | Some kitsu_status =>
          match build_orio_status available_statuses (Some kitsu_status) with
          | Raised e => Raised e
          | Returned st =>
              Returned {| media := media orio_review;
                          review_metadata := review_metadata orio_review;
                          review_status := Some st;
                          review_notes := review_notes orio_review |}
          end
      end in
    match with_status with
    | Raised e => Raised e
    | Returned r =>
        let kitsu_notes : list kitsu_note := [] in
        match add_notes kitsu_notes r with
        | Raised e => Raised e
        | Returned r => Returned (Some r)
        end
    end.

(** The note loop of [build_reviews]: each round appends [attach_to_dl] to
    [attachs_to_download], and nothing in the module binds that name. *)
Definition collect_attachments (kitsu_notes : list kitsu_note)
    (attachs : list string) : outcome (list string) :=
  match kitsu_notes with
  | [] => Returned attachs
  | _ :: _ => Raised (NameError "attach_to_dl")
  end.

(** [Process(target=download_attachements, args=(attachs_to_download))]
    followed by [p.start()]: the module neither imports nor defines
    [Process], so the call raises before anything is started. *)
Definition start_download (attachs : list string) : outcome unit :=
  Raised (NameError "Process").

(** The loop of [build_reviews] from index [i] on: [created] is
    [created_reviews], [attachs] is [attachs_to_download]. *)
Fixpoint build_reviews_loop (available_statuses : gmap string (list string))
    (kitsu_notes : list kitsu_note) (i : nat)
    (versions : list (option kitsu_version))
    (created : list (option MediaReview)) (attachs : list string)
  : outcome (list (option MediaReview)) :=
  match versions with
  | [] => Returned created
  | None :: rest =>
      build_reviews_loop available_statuses kitsu_notes (S i) rest created attachs
  | Some version :: rest =>
      match collect_attachments kitsu_notes attachs with
      | Raised e => Raised e
      | Returned attachs =>
          match edit_review available_statuses version with
          | Raised e => Raised e
          | Returned r =>
              match setitem created i r with
              | Raised e => Raised e
              | Returned created =>
                  match start_download attachs with
                  | Raised e => Raised e
                  | Returned _ =>
                      build_reviews_loop available_statuses kitsu_notes (S i)
                        rest created attachs
                  end
              end
          end
      end
  end.

(** [if not d.is_dir(): d.mkdir(parents=True)] *)
Definition make_dir {FS : FileSystem} (d : path) (files : fs) : outcome unit * fs :=
  if negb (is_dir files d) then mkdir_parents files d else (Returned tt, files).

(** The head of [build_reviews]: the cache directory, then its
    [downloads] directory. *)
Definition make_dirs {FS : FileSystem} (cache_dir : path) (files : fs)
  : outcome unit * fs :=
  match make_dir cache_dir files with
  | (Raised e, files) => (Raised e, files)
  | (Returned _, files) =>
      let downloads_dir := cache_dir ++ ["downloads"] in
      make_dir downloads_dir files
  end.

(** [build_reviews(available_statuses, kitsu_versions, kitsu_notes,
    cache_dir)]: its outcome and the file system it leaves. A version that
    is [None] stands for any falsy element of [kitsu_versions]. *)
Definition build_reviews {FS : FileSystem}
    (available_statuses : gmap string (list string))
    (kitsu_versions : list (option kitsu_version))
    (kitsu_notes : list kitsu_note) (cache_dir : path) (files : fs)
  : outcome (list (option MediaReview)) * fs :=
  match make_dirs cache_dir files with
  | (Raised e, files) => (Raised e, files)
  | (Returned _, files) =>
      let attachs_to_download := [] in
      let created_reviews := replicate (length kitsu_versions) None in
      (build_reviews_loop available_statuses kitsu_notes 0 kitsu_versions
         created_reviews attachs_to_download,
       files)
  end.

End WithExternals.

End Sequencer.


(** ** [stax_kitsu_ui/ops/ops_timeline.py] *)

Module OpsTimeline.
Import Sequencer.

(** The module globals [counter] and [frame_offset] (the latter becomes
    [None] when it is assigned a missing duration), next to the Blender data
    of the scene. *)
Record session : Type := {
  counter : Z;
  frame_offset : option Z;
  data : blend_data
}.

Definition initial_state (bd : blend_data) : session :=
  {| counter := 0; frame_offset := Some 0; data := bd |}.

Definition with_data (st : session) (bd : blend_data) : session :=
  {| counter := counter st; frame_offset := frame_offset st; data := bd |}.

(** An element of [editing_versions_mapping]: the tuple
    [(task_index, shot_index, version)]. *)
Record entry : Type := {
  task_index : value;
  shot_index : value;
  version : option kitsu_version
}.

(** [(None, None, None)] *)
Definition empty_entry : entry :=
  {| task_index := VNone; shot_index := VNone; version := None |}.

(** *** [LoadTimelineBase.execute]: the pending queue *)

(** Unpacking a [str] into the two targets [i, channel]: it succeeds on a
    string of exactly two characters and raises [ValueError] otherwise. *)
Definition unpack_pair (s : string) : outcome (string * string) :=
  match s with
  | EmptyString =>
      Raised (ValueError "not enough values to unpack (expected 2, got 0)")
  | String _ EmptyString =>
      Raised (ValueError "not enough values to unpack (expected 2, got 1)")
  | String a (String b EmptyString) =>
      Returned (String a EmptyString, String b EmptyString)
  | _ => Raised (ValueError "too many values to unpack (expected 2)")
  end.

(** [v == 0] *)
Definition value_is_zero (v : value) : bool :=
  match v with
  | VInt z => z =? 0
  | _ => false
  end.

(** An element of [last_versions]: the [{}] the list is created with, or the
    version assigned to the slot. *)
Inductive last_version_slot : Type :=
| EmptyDict
| Assigned (v : option kitsu_version).

(** The variables the mapping loops update. *)
Record mapping_state : Type := {
  editing_versions_mapping : list entry;
  last_versions : list last_version_slot;
  scene_frame_end : Z;
  version_index : nat
}.

(** The body of the inner loop for the shot at index [j]. *)
Definition shots_loop_body (i : value) (j : nat) (shot : kitsu_shot)
    (ms : mapping_state) : outcome mapping_state :=
  let frame_end' :=
    if value_is_zero i then
      match shot_duration shot with
      | Some d => Returned (scene_frame_end ms + d)
      | None =>
          Raised (TypeError "unsupported operand type(s) for +=: 'int' and 'NoneType'")
      end
    else Returned (scene_frame_end ms) in
  match frame_end' with
  | Raised e => Raised e
  | Returned fe =>
      let last_version : option kitsu_version := None in
      match setitem (editing_versions_mapping ms) (version_index ms)
              {| task_index := i; shot_index := VInt (Z.of_nat j);
                 version := last_version |} with
      | Raised e => Raised e
      | Returned mapping =>
          match setitem (last_versions ms) (version_index ms)
                  (Assigned last_version) with
          | Raised e => Raised e
          | Returned lasts =>
              Returned {| editing_versions_mapping := mapping;
                          last_versions := lasts;
                          scene_frame_end := fe;
                          version_index := S (version_index ms) |}
          end
      end
  end.

(** The inner loop [for j, shot in enumerate(kitsu_shots)], from index [j]. *)
Fixpoint shots_loop (i : value) (j : nat) (shots : list kitsu_shot)
    (ms : mapping_state) : outcome mapping_state :=
  match shots with
  | [] => Returned ms
  | shot :: rest =>
      match shots_loop_body i j shot ms with
      | Raised e => Raised e
      | Returned ms' => shots_loop i (S j) rest ms'
      end
  end.

(** The outer loop [for i, channel in reversed(selected_channels)], over the
    already reversed list: each element is a channel name, which the loop
    header unpacks into [i] and [channel]. *)
Fixpoint channels_loop (reversed_channels : list string)
    (kitsu_shots : list kitsu_shot) (ms : mapping_state)
  : outcome mapping_state :=
  match reversed_channels with
  | [] => Returned ms
  | item :: rest =>
      match unpack_pair item with
      | Raised e => Raised e
      | Returned (i, channel) =>
          match shots_loop (VStr i) 0 kitsu_shots ms with
          | Raised e => Raised e
          | Returned ms' => channels_loop rest kitsu_shots ms'
          end
      end
  end.

(** The queue [execute] builds from the selected channels and the shots. *)
Definition build_mapping (selected_channels : list string)
    (kitsu_shots : list kitsu_shot) : outcome mapping_state :=
  let tasks_total := length selected_channels in
  let shots_total := length kitsu_shots in
  channels_loop (reverse selected_channels) kitsu_shots
    {| editing_versions_mapping := replicate (tasks_total * shots_total) empty_entry;
       last_versions := replicate (tasks_total * shots_total) EmptyDict;
       scene_frame_end := 0;
       version_index := 0%nat |}.

(** [LoadTimelineBase.execute] up to the registration of the timer. The
    shots, which the source leaves as the literal [[]] until the tracker query
    is written, are an argument. The result is the queue handed to
    [build_progressive]; the statements after the registration (frame rate,
    session file) are outside this model. *)
Definition execute (selected_channels : list string)
    (kitsu_shots : list kitsu_shot) (st : session)
  : outcome (list entry) * session :=
  let st1 :=
    if (0 <? Z.of_nat (length (seq_ed (data st)))) then
      {| counter := 0; frame_offset := Some 0;
         data := with_seq_ed (data st) [] |}
    else st in
  let st2 := with_data st1 (with_tracks (data st1) selected_channels) in
  match build_mapping selected_channels kitsu_shots with
  | Raised e => (Raised e, st2)
  | Returned ms =>
      let bd3 := log_event (with_frame_end (data st2) (scene_frame_end ms)) ViewAll in
      (Returned (editing_versions_mapping ms), with_data st2 bd3)
  end.

(** *** [build_progressive] *)

(** What one round of the [for _ in range(5)] loop ends with. *)
Inductive round : Type :=
| Continue
| Return (v : option Z)
| Raise (e : exn).

(** The "Stopper" branch: frame the timeline, refresh, deselect, move the
    playhead to the requested shot if a strip has its name, and set the
    current frame again. *)
Definition finalize (shot_to_load : string) (bd : blend_data) : blend_data :=
  let bd := log_event bd ViewAll in
  let bd := log_event bd RefreshAll in
  let bd := log_event bd DeselectAll in
  let bd :=
    if negb (String.eqb shot_to_load "") then
      match list_find (fun m => shot_to_load = meta_name m) (seq_ed bd) with
      | Some (_, m) => frame_set bd (frame_final_start m)
      | None => bd
      end
    else bd in
  frame_set bd (frame_current bd).

(** [task_index + 1] *)
Definition value_succ (v : value) : outcome Z :=
  match v with
  | VInt z => Returned (z + 1)
  | VStr _ => Raised (TypeError "can only concatenate str (not int) to str")
  | VNone => Raised (TypeError "unsupported operand type(s) for +: 'NoneType' and 'int'")
  end.

(** The "Offset shots" statement. *)
Definition advance_offset (shot_index : value) (frame_offset shot_duration : option Z)
  : outcome (option Z) :=
  if value_is_zero shot_index then Returned shot_duration
  else
    match frame_offset, shot_duration with
    | Some o, Some d => Returned (Some (o + d))
    | _, _ => Raised (TypeError "unsupported operand type(s) for +=")
    end.

(** [shot_seq.update()] and [shot_seq.frame_final_duration = shot_duration]
    on the stack at [ref]. *)
Definition set_stack_duration (bd : blend_data) (ref : nat) (d : Z) : blend_data :=
  with_seq_ed bd
    (alter (fun m =>
       {| meta_name := meta_name m; meta_channel := meta_channel m;
          frame_final_start := frame_final_start m;
          frame_final_duration := d;
          stax_meta_usage := stax_meta_usage m;
          meta_kitsu_shot := meta_kitsu_shot m;
          sequences := sequences m |}) ref (seq_ed bd)).

(** [version_seq.lock = ...] and [version_seq["to_build_notes"] = True] on the
    strip at position [i] of the stack at [ref]. *)
Definition flag_version_seq (bd : blend_data) (ref i : nat) (lock : bool)
  : blend_data :=
  with_seq_ed bd
    (alter (fun m =>
       with_sequences m (alter (fun s => set_lock_and_flag s lock) i (sequences m)))
       ref (seq_ed bd)).

(** A queue entry as [execute] fills it, fit for the given tasks and shots:
    no version, integer indices within range, and a shot whose duration is
    set. *)
Definition plain_entry (selected_tasks : list string)
    (kitsu_shots : list kitsu_shot) (e : entry) : bool :=
  match version e, task_index e, shot_index e with
  | None, VInt i, VInt j =>
      (0 <=? i) && (i <? Z.of_nat (length selected_tasks)) && (0 <=? j)
      && match kitsu_shots !! Z.to_nat j with
         | Some shot => bool_decide (is_Some (shot_duration shot))
         | None => false
         end
  | _, _, _ => false
  end.

Section WithExternals.
Context `{Externals}.

(** The "Create version in meta" block for a truthy [version]. The version
    strip is requested by the call [create_version_sequence(shot_seq,
    version)], two positional arguments. *)
Definition build_version (task_name : string) (shot : kitsu_shot)
    (task_index shot_index : value) (v : kitsu_version) (st : session)
  : outcome unit * session :=
  match value_succ task_index with
  | Raised e => (Raised e, st)
  | Returned channel_index =>
      let frame_start :=
        if negb (value_is_zero shot_index) then frame_offset st else Some 0 in
      match create_shot_stack task_name (data st) shot channel_index frame_start with
      | (Raised e, bd) => (Raised e, with_data st bd)
      | (Returned shot_seq, bd) =>
          match call_create_version_sequence [ArgStack shot_seq; ArgVersion v] bd with
          | (Raised e, bd) => (Raised e, with_data st bd)
          | (Returned version_seq, bd) =>
              let bd :=
                match version_seq with
                | Some (ref, i) => flag_version_seq bd ref i is_user_authorized_to_review
                | None => bd
                end in
              match shot_duration shot with
              | Some d => (Returned tt, with_data st (set_stack_duration bd shot_seq d))
              | None => (Raised (TypeError "frame_final_duration: expected an int"), with_data st bd)
              end
          end
      end
  end.

(** One round of the loop body. *)
Definition build_round (selected_tasks : list string)
    (kitsu_shots : list kitsu_shot) (versions_and_reviews : list entry)
    (shot_to_load : string) (st : session) : round * session :=
  if Z.of_nat (length versions_and_reviews) <=? counter st then
    (Return None, with_data st (finalize shot_to_load (data st)))
  else
    let st :=
      if counter st mod 85 =? 0 then with_data st (log_event (data st) RefreshAll)
      else st in
    match getitem versions_and_reviews (counter st) with
    | Raised e => (Raise e, st)
    | Returned e =>
        match getitem_value selected_tasks (task_index e) with
        | Raised x => (Raise x, st)
        | Returned task_name =>
            match getitem_value kitsu_shots (shot_index e) with
            | Raised x => (Raise x, st)
            | Returned shot =>
                let shot_duration := shot_duration shot in
                let '(built, st) :=
                  match version e with
                  | Some v => build_version task_name shot (task_index e) (shot_index e) v st
                  | None => (Returned tt, st)
                  end in
                match built with
                | Raised x => (Raise x, st)
                | Returned _ =>
                    match advance_offset (shot_index e) (frame_offset st) shot_duration with
                    | Raised x => (Raise x, st)
                    | Returned fo =>
                        (Continue,
                         {| counter := counter st + 1; frame_offset := fo;
                            data := data st |})
                    end
                end
            end
        end
    end.

(** [for _ in range(n)] around the loop body, then [return 0]. *)
Fixpoint build_rounds (n : nat) (selected_tasks : list string)
    (kitsu_shots : list kitsu_shot) (versions_and_reviews : list entry)
    (shot_to_load : string) (st : session) : outcome (option Z) * session :=
  match n with
  | O => (Returned (Some 0), st)
  | S n' =>
      match build_round selected_tasks kitsu_shots versions_and_reviews shot_to_load st with
      | (Continue, st') =>
          build_rounds n' selected_tasks kitsu_shots versions_and_reviews shot_to_load st'
      | (Return v, st') => (Returned v, st')
      | (Raise e, st') => (Raised e, st')
      end
  end.

(** [build_progressive(context, selected_tasks, kitsu_shots,
    versions_and_reviews, shot_to_load)]. [is_animation_playing] is
    [context.screen.is_animation_playing]. The returned number is the delay
    before the timer calls again; [None] ends the timer. *)
Definition build_progressive (is_animation_playing : bool)
    (selected_tasks : list string) (kitsu_shots : list kitsu_shot)
    (versions_and_reviews : list entry) (shot_to_load : string) (st : session)
  : outcome (option Z) * session :=
  if is_animation_playing then (Returned (Some 1), st)
  else build_rounds 5 selected_tasks kitsu_shots versions_and_reviews shot_to_load st.

(** How a timer registered with [bpy.app.timers] stands after some ticks. *)
Inductive timer : Type :=
| Pending
| Done
| Crashed (e : exn).

(** The timer calling [build_progressive] once per tick, [playing] giving the
    playback flag read at each tick: it stops when the function returns
    [None] or raises. *)
Fixpoint run_timer (playing : list bool) (selected_tasks : list string)
    (kitsu_shots : list kitsu_shot) (versions_and_reviews : list entry)
    (shot_to_load : string) (st : session) : timer * session :=
  match playing with
  | [] => (Pending, st)
  | p :: rest =>
      match build_progressive p selected_tasks kitsu_shots versions_and_reviews
              shot_to_load st with
      | (Returned None, st') => (Done, st')
      | (Returned (Some _), st') =>
          run_timer rest selected_tasks kitsu_shots versions_and_reviews shot_to_load st'
      | (Raised e, st') => (Crashed e, st')
      end
  end.


End WithExternals.

End OpsTimeline.


(** ** [stax_kitsu_ui/ops/ops_session.py] *)

Module OpsSession.

(** A Python [str] as its sequence of code points, a [bytes] object as its
    sequence of byte values. *)
Definition str : Type := list Z.
Definition bytes : Type := list Z.

(** The values a byte can take. *)
Definition is_byte (b : Z) : Prop := 0 <= b < 256.

(** Unicode scalar values: code points up to U+10FFFF that are not
    surrogates. *)
Definition is_scalar (c : Z) : bool :=
  ((0 <=? c) && (c <? 0xD800)) || ((0xE000 <=? c) && (c <? 0x110000)).

(** *** The codecs of the Python standard library

    [str.encode("utf-8")], [bytes.decode("utf-8")] and the functions of the
    [base64] module are not code of the repository; they are written out
    here after UTF-8 (RFC 3629) and after [binascii.a2b_base64] /
    [b2a_base64] in their default, non-strict mode. Shifts and masks on
    non-negative numbers are written as multiplications, quotients and
    remainders by powers of two. *)

(** The UTF-8 bytes of one code point; [None] where [encode] raises
    [UnicodeEncodeError] (surrogates). *)
Definition utf8_encode_char (c : Z) : option bytes :=
  if negb (is_scalar c) then None
  else if c <? 0x80 then Some [c]
  else if c <? 0x800 then Some [0xC0 + c / 64; 0x80 + c mod 64]
  else if c <? 0x10000 then
    Some [0xE0 + c / 4096; 0x80 + (c / 64) mod 64; 0x80 + c mod 64]
  else
    Some [0xF0 + c / 262144; 0x80 + (c / 4096) mod 64;
          0x80 + (c / 64) mod 64; 0x80 + c mod 64].

(** [s.encode("utf-8")] *)
Fixpoint utf8_encode (s : str) : option bytes :=
  match s with
  | [] => Some []
  | c :: rest =>
      match utf8_encode_char c, utf8_encode rest with
      | Some bs, Some bs' => Some (bs ++ bs')
      | _, _ => None
      end
  end.

(** Continuation bytes [10xxxxxx]. *)
Definition is_cont (b : Z) : bool := (0x80 <=? b) && (b <? 0xC0).

(** [b.decode("utf-8")]; [None] where [decode] raises [UnicodeDecodeError]
    (stray or missing continuation bytes, overlong forms, surrogates, code
    points above U+10FFFF). *)
Fixpoint utf8_decode (bs : bytes) : option str :=
  match bs with
  | [] => Some []
  | b0 :: t0 =>
      if (0 <=? b0) && (b0 <? 0x80) then cons b0 <$> utf8_decode t0
      else if (0xC2 <=? b0) && (b0 <? 0xE0) then
        match t0 with
        | b1 :: t1 =>
            if is_cont b1
            then cons ((b0 - 0xC0) * 64 + (b1 - 0x80)) <$> utf8_decode t1
            else None
        | _ => None
        end
      else if (0xE0 <=? b0) && (b0 <? 0xF0) then
        match t0 with
        | b1 :: b2 :: t2 =>
            let c := (b0 - 0xE0) * 4096 + (b1 - 0x80) * 64 + (b2 - 0x80) in
            if is_cont b1 && is_cont b2 && (0x800 <=? c) && is_scalar c
            then cons c <$> utf8_decode t2
            else None
        | _ => None
        end
      else if (0xF0 <=? b0) && (b0 <? 0xF5) then
        match t0 with
        | b1 :: b2 :: b3 :: t3 =>
            let c := (b0 - 0xF0) * 262144 + (b1 - 0x80) * 4096
                     + (b2 - 0x80) * 64 + (b3 - 0x80) in
            if is_cont b1 && is_cont b2 && is_cont b3
               && (0x10000 <=? c) && is_scalar c
            then cons c <$> utf8_decode t3
            else None
        | _ => None
        end
      else None
  end.

(** The character of the Base64 alphabet [A-Za-z0-9+/] for a 6-bit value. *)
Definition b64_char (i : Z) : Z :=
  if i <? 26 then 65 + i
  else if i <? 52 then 97 + (i - 26)
  else if i <? 62 then 48 + (i - 52)
  else if i =? 62 then 43
  else 47.

(** The 6-bit value of a character of the alphabet ([table_a2b_base64]); the
    pad character and everything else has none. *)
Definition b64_value (c : Z) : option Z :=
  if (65 <=? c) && (c <=? 90) then Some (c - 65)
  else if (97 <=? c) && (c <=? 122) then Some (c - 97 + 26)
  else if (48 <=? c) && (c <=? 57) then Some (c - 48 + 52)
  else if c =? 43 then Some 62
  else if c =? 47 then Some 63
  else None.

(** [=] *)
Definition BASE64_PAD : Z := 61.

(** [base64.b64encode(b)]: three bytes give four characters, a last group of
    one or two bytes is padded. *)
Fixpoint b64encode (b : bytes) : bytes :=
  match b with
  | [] => []
  | [x] => [b64_char (x / 4); b64_char ((x mod 4) * 16); BASE64_PAD; BASE64_PAD]
  | [x; y] =>
      [b64_char (x / 4); b64_char ((x mod 4) * 16 + y / 16);
       b64_char ((y mod 16) * 4); BASE64_PAD]
  | x :: y :: z :: rest =>
      b64_char (x / 4) :: b64_char ((x mod 4) * 16 + y / 16)
      :: b64_char ((y mod 16) * 4 + z / 64) :: b64_char (z mod 64)
      :: b64encode rest
  end.

(** [binascii_find_valid(s, slen, num)]: the [(num+1)]-th character of [s]
    that is a 7-bit character and either of the alphabet or the pad. *)
Fixpoint find_valid (s : bytes) (num : nat) : option Z :=
  match s with
  | [] => None
  | c :: rest =>
      if (c <=? 0x7f) && (bool_decide (is_Some (b64_value c)) || (c =? BASE64_PAD)) then
        match num with
        | O => Some c
        | S n => find_valid rest n
        end
      else find_valid rest num
  end.

(** The loop of [binascii.a2b_base64]: [quad_pos], [leftbits] and [leftchar]
    are the variables of the C function, [out] the bytes written so far.
    Characters outside the alphabet are skipped, a pad sequence ends the
    input, bits left over at the end are an error ([None]). *)
Fixpoint a2b_base64_loop (s : bytes) (quad_pos leftbits leftchar : Z)
    (out : bytes) : option bytes :=
  match s with
  | [] => if leftbits =? 0 then Some out else None
  | this_ch :: rest =>
      if (0x7f <? this_ch) || (this_ch =? 13) || (this_ch =? 10) || (this_ch =? 32)
      then a2b_base64_loop rest quad_pos leftbits leftchar out
      else if this_ch =? BASE64_PAD then
        if (quad_pos <? 2)
           || ((quad_pos =? 2)
               && negb (bool_decide (find_valid s 1 = Some BASE64_PAD)))
        then a2b_base64_loop rest quad_pos leftbits leftchar out
        else Some out
      else
        match b64_value this_ch with
        | None => a2b_base64_loop rest quad_pos leftbits leftchar out
        | Some v =>
            let quad_pos := (quad_pos + 1) mod 4 in
            let leftchar := leftchar * 64 + v in
            let leftbits := leftbits + 6 in
            if 8 <=? leftbits then
              let leftbits := leftbits - 8 in
              a2b_base64_loop rest quad_pos leftbits (leftchar mod 2 ^ leftbits)
                (out ++ [(leftchar / 2 ^ leftbits) mod 256])
            else a2b_base64_loop rest quad_pos leftbits leftchar out
        end
  end.

(** [base64.b64decode(s)] for a [str] argument: the string is first encoded
    as ASCII, which raises [ValueError] on any other character. *)
Definition b64decode (s : str) : Py.outcome bytes :=
  if forallb (fun c => (0 <=? c) && (c <? 0x80)) s then
    match a2b_base64_loop s 0 0 0 [] with
    | Some b => Py.Returned b
    | None => Py.Raised Py.BinasciiError
    end
  else Py.Raised (Py.ValueError "string argument should contain only ASCII characters").

(** *** The two functions of the module *)

(** [encode_password]:
    [base64.b64encode(password.encode("utf-8")).decode("utf-8")]. *)
Definition encode_password (password : str) : Py.outcome str :=
  match utf8_encode password with
  | None => Py.Raised Py.UnicodeEncodeError
  | Some b =>
      match utf8_decode (b64encode b) with
      | Some s => Py.Returned s
      | None => Py.Raised Py.UnicodeDecodeError
      end
  end.

(** [decode_password]:
    [base64.b64decode(password).decode("utf-8") if password else ""]. *)
Definition decode_password (password : str) : Py.outcome str :=
  match password with
  | [] => Py.Returned []
  | _ =>
      match b64decode password with
      | Py.Raised e => Py.Raised e
      | Py.Returned b =>
          match utf8_decode b with
          | Some s => Py.Returned s
          | None => Py.Raised Py.UnicodeDecodeError
          end
      end
  end.

End OpsSession.


(** ** [stax_kitsu_ui/utils.py] and the property callbacks of
      [ops_timeline.py] *)

Module Utils.

(** [AvailableItem]: an element of [scene.available_shots],
    [scene.available_timelines] or [scene.channels_list]. *)
Record AvailableItem : Type := {
  item_name : string;
  item_description : string;
  item_selected : bool
}.

(** [collection.find(key)]: the index of the first item with that name, or
    [-1]. *)
Definition find (items : list AvailableItem) (key : string) : Z :=
  match list_find (fun it => item_name it = key) items with
  | Some (i, _) => Z.of_nat i
  | None => -1
  end.

(** A bound of a slice, as Python clamps it for a sequence of length [n]. *)
Definition slice_bound (n i : Z) : Z :=
  if i <? 0 then Z.max 0 (i + n) else Z.min i n.

(** [l[a:b]] *)
Definition slice {A} (l : list A) (a b : Z) : list A :=
  let n := Z.of_nat (length l) in
  take (Z.to_nat (slice_bound n b - slice_bound n a))
       (drop (Z.to_nat (slice_bound n a)) l).

(** [get_shots_list()], for the values of [scene.available_shots],
    [scene.shot_to_load] and [scene.context_shots]. *)
Definition get_shots_list (available_shots : list AvailableItem)
    (shot_to_load : string) (context_shots : Z) : list string :=
  let shots_to_load :=
    if negb (String.eqb shot_to_load "") && negb (String.eqb shot_to_load "All") then
      let selected_shot_index := find available_shots shot_to_load in
      slice available_shots
        (Z.max 0 (selected_shot_index - context_shots))
        (Z.min (Z.of_nat (length available_shots))
               (selected_shot_index + context_shots + 1))
    else available_shots in
  item_name <$> filter (fun shot => item_name shot <> "All") shots_to_load.

(** [get_selected_channels_list()], for the value of [scene.channels_list]. *)
Definition get_selected_channels_list (channels_list : list AvailableItem)
  : list string :=
  item_name <$> filter (fun channel => item_selected channel = true) channels_list.

(** [update_toggle_all_tasks(self, context)]: the new [scene.channels_list]
    for the value of [self.toggle_all_tasks]. *)
Definition update_toggle_all_tasks (toggle_all_tasks : bool)
    (channels_list : list AvailableItem) : list AvailableItem :=
  (fun task => {| item_name := item_name task;
                  item_description := item_description task;
                  item_selected := toggle_all_tasks |}) <$> channels_list.

End Utils.

(** ** [ops_session.py]: the flags of the authentication operator *)

Module Authentication.
Import OpsSession.

(** A value of the user configuration. *)
Inductive config_value : Type :=
| CBool (b : bool)
| CStr (s : str).

(** The properties of [WM_OT_production_manager_authentication]. *)
Record operator : Type := {
  login : str;
  password : str;
  save_credentials : bool;
  auto_login : bool
}.

(** The [additional_data] both callbacks pass to [write_user_config]. *)
Definition flags_data (self : operator) : gmap string config_value :=
  <["auto_login" := CBool (auto_login self)]>
    (<["save_credentials" := CBool (save_credentials self)]> ∅).

(** [switch_save_credentials(self, _)]: the operator afterwards and what is
    written to the configuration. *)
Definition switch_save_credentials (self : operator)
  : operator * gmap string config_value :=
  let self :=
    if negb (save_credentials self) then
      {| login := login self; password := password self;
         save_credentials := save_credentials self; auto_login := false |}
    else self in
  (self, flags_data self).

(** [switch_auto_login(self, _)] *)
Definition switch_auto_login (self : operator)
  : operator * gmap string config_value :=
  let self :=
    if auto_login self then
      {| login := login self; password := password self;
         save_credentials := true; auto_login := auto_login self |}
    else self in
  (self, flags_data self).

(** What [execute] leaves behind: the operator, [user_preferences.author_name],
    [scene.session_logged_in], the data written to the configuration if any,
    and the reported message. *)
Record executed : Type := {
  exec_operator : operator;
  author_name : str;
  session_logged_in : bool;
  written : option (gmap string config_value);
  reported : string * string
}.

(** [WM_OT_production_manager_authentication.execute]. [authenticate], which
    the source calls without defining it, is an argument. *)
Definition execute (authenticate : str -> str -> bool) (self : operator)
  : Py.outcome executed :=
  let author := login self in
  if authenticate (login self) (password self) then
    match encode_password (password self) with
    | Py.Raised e => Py.Raised e
    | Py.Returned stored =>
        Py.Returned
          {| exec_operator := self; author_name := author;
             session_logged_in := true;
             written :=
               Some (<["auto_login" := CBool (auto_login self)]>
                       (<["password" := CStr stored]>
                          (<["save_credentials" := CBool (save_credentials self)]> ∅)));
             reported := ("INFO", "Authentication Successful") |}
    end
  else
    Py.Returned
      {| exec_operator :=
           {| login := login self; password := [];
              save_credentials := save_credentials self;
              auto_login := auto_login self |};
         author_name := author;
         session_logged_in := false;
         written := None;
         reported := ("ERROR", "Authentication failed") |}.

End Authentication.

(** ** Concrete data used by the examples below *)

Module Samples.
Import Sequencer OpsTimeline.

(** The status taxonomy [approved = {"validated"}],
    [rejected = {"revision_needed"}]. *)
Definition statuses : gmap string (list string) :=
  <["approved" := ["validated"]]> (<["rejected" := ["revision_needed"]]> ∅).

(** One way of filling in the names the sources leave open: a version strip
    is named after the version identifier, nothing can be downloaded, every
    path is a movie file and the host creates every strip it is asked for. *)
Definition externals : Externals :=
  {| get_version_seq_name := version_id;
     download_movie_from_kitsu := fun _ => None;
     get_kitsu_statuses := statuses;
     is_user_authorized_to_review := true;
     path_is_file := fun _ => true;
     path_suffix_lower := fun _ => ".mov";
     host_new_strip := fun _ _ _ _ _ => true |}.

Definition empty_scene : blend_data :=
  {| seq_ed := []; annotation_layers := [∅]; tracks := [];
     frame_end := 250; frame_current := 1; host_log := [] |}.

Definition sh010 : kitsu_shot :=
  {| shot_name := "SH010"; shot_code := Some "SH010"; shot_duration := Some 24 |}.
Definition sh020 : kitsu_shot :=
  {| shot_name := "SH020"; shot_code := Some "SH020"; shot_duration := Some 48 |}.
Definition sh030 : kitsu_shot :=
  {| shot_name := "SH030"; shot_code := Some "SH030"; shot_duration := Some 12 |}.
Definition sh040_no_duration : kitsu_shot :=
  {| shot_name := "SH040"; shot_code := Some "SH040"; shot_duration := None |}.

Definition v001 : kitsu_version :=
  {| version_id := "SH010_anim_v001";
     movie_path := Some "/media/SH010_anim_v001.mov";
     status := Some "validated" |}.
Definition v002 : kitsu_version :=
  {| version_id := "SH020_anim_v001";
     movie_path := Some "/media/SH020_anim_v001.mov";
     status := Some "in_progress" |}.
Definition v003 : kitsu_version :=
  {| version_id := "SH030_anim_v001";
     movie_path := Some "/media/SH030_anim_v001.mov";
     status := Some "revision_needed" |}.

(** A queue entry [(task, shot, version)] with integer indices. *)
Definition queue_entry (task shot : Z) (v : option kitsu_version) : entry :=
  {| task_index := VInt task; shot_index := VInt shot; version := v |}.

(** Three shots of 24, 48 and 12 frames on the single channel ["anim"], each
    with a version to build. *)
Definition three_shots : list kitsu_shot := [sh010; sh020; sh030].
Definition three_shots_queue : list entry :=
  [queue_entry 0 0 (Some v001); queue_entry 0 1 (Some v002);
   queue_entry 0 2 (Some v003)].

(** The same three shots without versions. *)
Definition three_shots_plain_queue : list entry :=
  [queue_entry 0 0 None; queue_entry 0 1 None; queue_entry 0 2 None].

(** Thirteen entries without versions over the three shots. *)
Definition thirteen_queue : list entry :=
  (fun k => queue_entry 0 (Z.of_nat (k mod 3)) None) <$> seq 0 13.

(** Thirteen entries over the three shots, each with the version of its
    shot. *)
Definition thirteen_versions_queue : list entry :=
  (fun k => queue_entry 0 (Z.of_nat (k mod 3)) ([v001; v002; v003] !! (k mod 3)%nat))
    <$> seq 0 13.

(** The queue [execute] builds for the channel ["an"] and thirteen shots. *)
Definition thirteen_loaded_queue : list entry :=
  match fst (execute ["an"] (replicate 13 sh010) (initial_state empty_scene)) with
  | Returned queue => queue
  | Raised _ => []
  end.

(** A file system given by the directories it holds, on which [mkdir] makes
    the directory and its parents and never fails. *)
Definition directories : FileSystem :=
  {| fs := list path;
     is_dir := fun files d => bool_decide (d ∈ files);
     mkdir_parents := fun files d =>
       (Returned tt, ((fun k => take k d) <$> seq 1 (length d)) ++ files) |}.

(** The same, on which no directory can be made. *)
Definition read_only : FileSystem :=
  {| fs := list path;
     is_dir := fun files d => bool_decide (d ∈ files);
     mkdir_parents := fun files d =>
       (Raised (OSError "Read-only file system"), files) |}.

Definition cache_dir : path := ["cache"; "reviews"].

(** A note replying to a note that is not part of the batch. *)
Definition orphan_note : kitsu_note :=
  {| note_id := "note-2"; note_parent_id := Some "note-1";
     user_name := "reviewer"; creation_date := "2021-06-01T10:00:00" |}.

(** A shot stack that already holds the strip of [v001]. *)
Definition stack_with_v001 : meta :=
  {| meta_name := "SH010_anim"; meta_channel := 1; frame_final_start := 0;
     frame_final_duration := 24; stax_meta_usage := Some "Versions";
     meta_kitsu_shot := Some sh010;
     sequences := [new_strip MOVIE "SH010_anim_v001" "/media/SH010_anim_v001.mov" 1 0] |}.

Definition empty_stack : meta :=
  {| meta_name := "SH010_anim"; meta_channel := 1; frame_final_start := 0;
     frame_final_duration := 24; stax_meta_usage := Some "Versions";
     meta_kitsu_shot := Some sh010; sequences := [] |}.

(** Two shots on the channel ["anim"], the first without duration, each with
    a version to build. *)
Definition missing_duration_shots : list kitsu_shot := [sh040_no_duration; sh010].
Definition missing_duration_queue : list entry :=
  [queue_entry 0 0 (Some v002); queue_entry 0 1 (Some v001)].

End Samples.

(** ** Shapes of queues used in the statements below *)

Module Shapes.
Import Sequencer OpsTimeline.

(** The first character of a name, as a one-character string. *)
Definition head_char (s : string) : string :=
  match s with
  | String a _ => String a EmptyString
  | EmptyString => EmptyString
  end.

(** The entries of one channel: one per shot index below [n], in order,
    without version. *)
Definition channel_entries (i : value) (n : nat) : list entry :=
  (fun j => {| task_index := i; shot_index := VInt (Z.of_nat j); version := None |})
    <$> seq 0 n.

(** The queue [execute] produces for channel names of two characters: the
    channels in reverse order, each with the entries of the [n] shots, the
    first character of the name standing where the task index belongs. *)
Definition unpacked_queue (selected_channels : list string) (n : nat)
  : list entry :=
  mjoin ((fun c => channel_entries (VStr (head_char c)) n)
           <$> reverse selected_channels).

(** The sum of the durations that are set. *)
Definition total_duration (shots : list kitsu_shot) : Z :=
  foldr (fun shot acc => default 0 (shot_duration shot) + acc) 0 shots.

(** A state of the mapping loops in which [done] holds the entries written
    so far and [free] slots are left. *)
Definition filled (ms : mapping_state) (done : list entry) (free : nat) (fe : Z)
  : Prop :=
  editing_versions_mapping ms = done ++ replicate free empty_entry
  /\ last_versions ms
     = replicate (length done) (Assigned None) ++ replicate free EmptyDict
  /\ scene_frame_end ms = fe
  /\ version_index ms = length done.

(** The queue of the channel with index [task] over the given shots. *)
Definition channel_queue (task : Z) (shots : list kitsu_shot) : list entry :=
  channel_entries (VInt task) (length shots).

(** The cursor and the accumulator go together: the cursor is within the
    shots, and once it has left 0 the accumulator is the sum of the durations
    of the shots before it. *)
Definition in_step (shots : list kitsu_shot) (st : session) : Prop :=
  0 <= counter st <= Z.of_nat (length shots)
  /\ (counter st = 0 -> is_Some (frame_offset st))
  /\ (1 <= counter st ->
      frame_offset st
      = Some (total_duration (take (Z.to_nat (counter st)) shots))).

End Shapes.

(** ** More concrete data *)

Module MoreSamples.
Import Sequencer OpsTimeline.

(** The interface of [Samples.externals] with an empty status taxonomy. *)
Definition externals_without_statuses : Externals :=
  {| get_version_seq_name := version_id;
     download_movie_from_kitsu := fun _ => None;
     get_kitsu_statuses := ∅;
     is_user_authorized_to_review := true;
     path_is_file := fun _ => true;
     path_suffix_lower := fun _ => ".mov";
     host_new_strip := fun _ _ _ _ _ => true |}.

Definition shot_item (name : string) : Utils.AvailableItem :=
  {| Utils.item_name := name; Utils.item_description := "";
     Utils.item_selected := true |}.

(** Five available shots after the entry "All". *)
Definition available_shots : list Utils.AvailableItem :=
  shot_item <$> ["All"; "SH010"; "SH020"; "SH030"; "SH040"; "SH050"].

(** An operator with auto log-in set and save-credentials cleared. *)
Definition operator_auto : Authentication.operator :=
  {| Authentication.login := [97; 100; 109; 105; 110];
     Authentication.password := [8364; 128512; 233];
     Authentication.save_credentials := false;
     Authentication.auto_login := true |}.

(** What [execute] gives for the channels "fx" and "an" and three shots on an
    empty scene. *)
Definition loaded_queue : list entry :=
  Eval vm_compute in Shapes.unpacked_queue ["fx"; "an"] 3.
Definition loaded_state : session :=
  Eval vm_compute in
    snd (execute ["fx"; "an"] Samples.three_shots
           (initial_state Samples.empty_scene)).

End MoreSamples.

(** * Properties *)

Import Sequencer OpsTimeline OpsSession.

Section StatusMapping.

Lemma contains_true (l : list string) (s : string) :
  s ∈ l -> contains l (Some s) = true.
Proof. intros Hin. unfold contains. by apply bool_decide_eq_true. Qed.

Lemma contains_false (l : list string) (s : string) :
  s ∉ l -> contains l (Some s) = false.
Proof. intros Hin. unfold contains. by apply bool_decide_eq_false. Qed.

(** C6. With both label sets present and disjoint, [build_orio_status] sends
    a status of the approved set to the state approved, a status of the
    rejected set to rejected, and any other status to waiting review; with
    approved = {"validated"} and rejected = {"revision_needed"} it sends
    "validated" to approved, "revision_needed" to rejected and "in_progress"
    to waiting review. *)
Theorem status_mapping (available_statuses : gmap string (list string))
    (approved rejected : list string) (raw : string)
    (Happroved : available_statuses !! "approved" = Some approved)
    (Hrejected : available_statuses !! "rejected" = Some rejected)
    (Hdisjoint : forall s, s ∈ approved -> s ∈ rejected -> False) :
  (raw ∈ approved ->
     build_orio_status available_statuses (Some raw)
     = Returned {| state := "approved"; author := "" |})
  /\ (raw ∈ rejected ->
     build_orio_status available_statuses (Some raw)
     = Returned {| state := "rejected"; author := "" |})
  /\ (raw ∉ approved -> raw ∉ rejected ->
     build_orio_status available_statuses (Some raw)
     = Returned {| state := "waiting review"; author := "" |})
  /\ build_orio_status Samples.statuses (Some "validated")
     = Returned {| state := "approved"; author := "" |}
  /\ build_orio_status Samples.statuses (Some "revision_needed")
     = Returned {| state := "rejected"; author := "" |}
  /\ build_orio_status Samples.statuses (Some "in_progress")
     = Returned {| state := "waiting review"; author := "" |}.
Proof.
  unfold build_orio_status. rewrite Happroved, Hrejected.
  repeat split.
  - intros Hin.
    rewrite contains_false by (intros Hr; exact (Hdisjoint raw Hin Hr)).
    by rewrite contains_true.
  - intros Hin. by rewrite contains_true.
  - intros Hna Hnr. by rewrite !contains_false.
Qed.

End StatusMapping.

Lemma status_mapping_witness :
  build_orio_status Samples.statuses (Some "validated")
  = Returned {| state := "approved"; author := "" |}.
Proof.
  refine (proj1 (status_mapping Samples.statuses ["validated"] ["revision_needed"]
                   "validated" _ _ _) _).
  - reflexivity.
  - reflexivity.
  - intros s Ha Hr. apply list_elem_of_singleton in Ha, Hr. congruence.
  - apply list_elem_of_singleton. reflexivity.
Defined.

(** ** Version strips: the two sentinels of [create_version_sequence] *)

Section VersionSequence.
Context `{Externals}.


Lemma create_version_sequence_existing {Self : Type} (self : Self)
    (shot_stack : meta) (kv : kitsu_version) (channel_index : option Z)
    (try_download : bool) :
  get_version_seq_name kv ∈ seq_name <$> sequences shot_stack
  \/ "stax." +:+ get_version_seq_name kv ∈ seq_name <$> sequences shot_stack ->
  create_version_sequence self shot_stack kv channel_index try_download
  = (Returned None, shot_stack).
Proof.
  intros Hin. unfold create_version_sequence.
  destruct Hin as [Hin|Hin].
  - by rewrite (bool_decide_eq_true_2 _ Hin).
  - rewrite (bool_decide_eq_true_2 _ Hin). by rewrite orb_true_r.
Qed.

(** A call either gives the stack back untouched with the result [None], or
    leaves a strip with the version's name in the stack. *)
Lemma create_version_sequence_result {Self : Type} (self : Self)
    (shot_stack : meta) (kv : kitsu_version) (channel_index : option Z)
    (try_download : bool) :
  create_version_sequence self shot_stack kv channel_index try_download
  = (Returned None, shot_stack)
  \/ get_version_seq_name kv
     ∈ seq_name <$> sequences
         (snd (create_version_sequence self shot_stack kv channel_index try_download)).
Proof.
  unfold create_version_sequence.
  destruct (bool_decide _ || bool_decide _); [by left|].
  destruct (negb (truthy_str _)); [by left|].
  destruct (negb (host_new_strip _ _ _ _ _)); [by left|].
  right.
  destruct (build_orio_status _ _); cbn [snd with_sequences sequences];
    rewrite fmap_app; apply elem_of_app; right; cbn;
    apply list_elem_of_singleton; reflexivity.
Qed.


End VersionSequence.


(** ** The build timer *)

Section Build.
Context `{Externals}.

Lemma getitem_lookup {A} (l : list A) (i : Z) (x : A) :
  0 <= i -> l !! Z.to_nat i = Some x -> getitem l i = Returned x.
Proof.
  intros Hi Hl. unfold getitem.
  pose proof (lookup_lt_Some _ _ _ Hl) as Hlt.
  destruct (Z.ltb_spec i 0); [lia|].
  destruct (Z.leb_spec 0 i); [|lia].
  destruct (Z.ltb_spec i (Z.of_nat (length l))); [|lia].
  cbn. by rewrite Hl.
Qed.

(** The call of [build_progressive] passes two positional arguments to a
    function with three required parameters. *)
Lemma call_with_two_arguments (a b : argument) (bd : blend_data) :
  call_create_version_sequence [a; b] bd
  = (Raised (TypeError "create_version_sequence() missing 1 required positional argument: 'kitsu_version'"),
     bd).
Proof. reflexivity. Qed.

Lemma create_shot_stack_containers (channel_name : string) (bd : blend_data)
    (shot : kitsu_shot) (channel_index : Z) (frame_start : option Z) :
  version_containers (snd (create_shot_stack channel_name bd shot channel_index frame_start))
  = version_containers bd.
Proof.
  unfold create_shot_stack.
  destruct (negb (truthy_int (shot_duration shot))); [reflexivity|].
  destruct frame_start as [start|], (shot_duration shot) as [d|]; try reflexivity.
  unfold version_containers. cbn.
  rewrite fmap_app, concat_app. cbn. by rewrite app_nil_r.
Qed.

Lemma create_shot_stack_missing_duration (channel_name : string)
    (bd : blend_data) (shot : kitsu_shot) (channel_index : Z)
    (frame_start : option Z) :
  truthy_int (shot_duration shot) = false ->
  create_shot_stack channel_name bd shot channel_index frame_start
  = (Raised (ValueError ("Shot " +:+ format_opt (shot_code shot)
       +:+ ": 'duration' is None. Fix it in Kitsu before retrying to load.")), bd).
Proof. intros Hd. unfold create_shot_stack. by rewrite Hd. Qed.

(** Building a version never gets past the call of
    [create_version_sequence]: it raises, the cursor and the accumulator keep
    their values, and no version strip is added. *)
Lemma build_version_raises (task_name : string) (shot : kitsu_shot)
    (ti si : value) (v : kitsu_version) (st : session) :
  exists e st',
    build_version task_name shot ti si v st = (Raised e, st')
    /\ counter st' = counter st
    /\ frame_offset st' = frame_offset st
    /\ version_containers (data st') = version_containers (data st).
Proof.
  unfold build_version.
  destruct (value_succ ti) as [ci|e];
    [|do 2 eexists; repeat split; reflexivity].
  pose proof (create_shot_stack_containers task_name (data st) shot ci
                (if negb (value_is_zero si) then frame_offset st else Some 0)) as Hc.
  destruct (create_shot_stack _ _ _ _ _) as [[ref|e] bd]; cbn [snd] in Hc.
  - rewrite call_with_two_arguments.
    do 2 eexists; repeat split; [reflexivity..|exact Hc].
  - do 2 eexists; repeat split; [reflexivity..|exact Hc].
Qed.

Lemma finalize_seq_ed (shot_to_load : string) (bd : blend_data) :
  seq_ed (finalize shot_to_load bd) = seq_ed bd.
Proof.
  unfold finalize.
  destruct (negb (String.eqb shot_to_load "")); [|reflexivity].
  destruct (list_find _ _) as [[? ?]|]; reflexivity.
Qed.

(** One round moves the cursor by one when it goes on and leaves it alone
    when it returns or raises; it never changes the version strips. *)
Lemma build_round_frame (selected_tasks : list string)
    (kitsu_shots : list kitsu_shot) (queue : list entry)
    (shot_to_load : string) (st : session) :
  version_containers
    (data (snd (build_round selected_tasks kitsu_shots queue shot_to_load st)))
  = version_containers (data st)
  /\ counter (snd (build_round selected_tasks kitsu_shots queue shot_to_load st))
     = match fst (build_round selected_tasks kitsu_shots queue shot_to_load st) with
       | Continue => counter st + 1
       | _ => counter st
       end.
Proof.
  unfold build_round.
  destruct (Z.of_nat (length queue) <=? counter st).
  { cbn [fst snd]. unfold version_containers, with_data. cbn [data counter].
    by rewrite finalize_seq_ed. }
  set (st0 := if counter st mod 85 =? 0 then _ else st).
  assert (Hst0 : version_containers (data st0) = version_containers (data st)
                 /\ counter st0 = counter st).
  { subst st0. destruct (counter st mod 85 =? 0); done. }
  destruct Hst0 as [Hv0 Hc0]. clearbody st0.
  destruct (getitem queue (counter st0)) as [e|x]; [|done].
  destruct (getitem_value selected_tasks (task_index e)) as [task_name|x]; [|done].
  destruct (getitem_value kitsu_shots (shot_index e)) as [shot|x]; [|done].
  destruct (version e) as [v|].
  - destruct (build_version_raises task_name shot (task_index e) (shot_index e) v st0)
      as (x & st' & -> & Hc & _ & Hv).
    cbn. split; congruence.
  - destruct (advance_offset _ _ _); cbn [fst snd counter data];
      split; congruence.
Qed.

Lemma build_rounds_frame (n : nat) (selected_tasks : list string)
    (kitsu_shots : list kitsu_shot) (queue : list entry)
    (shot_to_load : string) (st : session) :
  let st' := snd (build_rounds n selected_tasks kitsu_shots queue shot_to_load st) in
  version_containers (data st') = version_containers (data st)
  /\ counter st <= counter st' <= counter st + Z.of_nat n.
Proof.
  revert st. induction n as [|n IH]; intros st; cbn.
  { split; [done|lia]. }
  pose proof (build_round_frame selected_tasks kitsu_shots queue shot_to_load st)
    as [Hv Hc].
  destruct (build_round _ _ _ _ st) as [[|v|e] st1]; cbn [fst snd] in *.
  - destruct (IH st1) as [Hv1 Hc1]. split; [congruence|lia].
  - split; [done|lia].
  - split; [done|lia].
Qed.

Lemma build_progressive_frame (playing : bool) (selected_tasks : list string)
    (kitsu_shots : list kitsu_shot) (queue : list entry)
    (shot_to_load : string) (st : session) :
  let st' := snd (build_progressive playing selected_tasks kitsu_shots queue
                    shot_to_load st) in
  version_containers (data st') = version_containers (data st)
  /\ counter st <= counter st' <= counter st + 5.
Proof.
  unfold build_progressive. destruct playing.
  - cbn. split; [done|lia].
  - apply (build_rounds_frame 5).
Qed.



(** C4. With playback active, a tick of [build_progressive] returns the delay
    1 (not [None], so the timer is kept) and the whole state, cursor,
    accumulator and timeline included, is unchanged; this holds for any
    number of such ticks in a row. *)
Theorem playback_guard (selected_tasks : list string)
    (kitsu_shots : list kitsu_shot) (queue : list entry)
    (shot_to_load : string) (st : session) (ticks : nat) :
  build_progressive true selected_tasks kitsu_shots queue shot_to_load st
  = (Returned (Some 1), st)
  /\ run_timer (replicate ticks true) selected_tasks kitsu_shots queue
       shot_to_load st
     = (Pending, st).
Proof.
  split; [reflexivity|].
  induction ticks as [|n IH]; [reflexivity|]. cbn. exact IH.
Qed.

End Build.


(** ** Batches of the build timer *)

Section Batches.
Context `{Externals}.
Variables (selected_tasks : list string) (kitsu_shots : list kitsu_shot)
          (queue : list entry) (shot_to_load : string).

Lemma getitem_in_range {A} (l : list A) (i : Z) :
  0 <= i < Z.of_nat (length l) -> exists x, getitem l i = Returned x.
Proof.
  intros Hi.
  destruct (lookup_lt_is_Some_2 l (Z.to_nat i)) as [x Hx]; [lia|].
  exists x. apply getitem_lookup; [lia|exact Hx].
Qed.

(** A round on an entry without version, with indices in range and a shot
    duration, goes on to the next entry. *)
Lemma build_round_plain (st : session) (e : entry) :
  0 <= counter st ->
  queue !! Z.to_nat (counter st) = Some e ->
  plain_entry selected_tasks kitsu_shots e = true ->
  is_Some (frame_offset st) ->
  exists st',
    build_round selected_tasks kitsu_shots queue shot_to_load st = (Continue, st')
    /\ counter st' = counter st + 1
    /\ is_Some (frame_offset st').
Proof.
  intros Hpos He Hplain [o Ho]. unfold build_round.
  pose proof (lookup_lt_Some _ _ _ He) as Hlt.
  destruct (Z.leb_spec (Z.of_nat (length queue)) (counter st)); [lia|].
  set (st0 := if counter st mod 85 =? 0 then _ else st).
  assert (Hst0 : counter st0 = counter st /\ frame_offset st0 = frame_offset st).
  { subst st0. destruct (counter st mod 85 =? 0); done. }
  destruct Hst0 as [Hc0 Hf0]. clearbody st0.
  rewrite Hc0, (getitem_lookup queue (counter st) e Hpos He).
  unfold plain_entry in Hplain.
  destruct (version e) as [v|]; [discriminate|].
  destruct (task_index e) as [|i|]; try discriminate.
  destruct (shot_index e) as [|j|]; try discriminate.
  apply andb_prop in Hplain as [Hplain Hshot].
  apply andb_prop in Hplain as [Hplain Hj].
  apply andb_prop in Hplain as [Hi0 Hi1].
  apply Z.leb_le in Hi0, Hj. apply Z.ltb_lt in Hi1.
  destruct (getitem_in_range selected_tasks i) as [task_name Htask]; [lia|].
  cbn [getitem_value]. rewrite Htask.
  destruct (kitsu_shots !! Z.to_nat j) as [shot|] eqn:Hlookup; [|discriminate].
  apply bool_decide_eq_true in Hshot as [d Hd].
  rewrite (getitem_lookup kitsu_shots j shot Hj Hlookup).
  unfold advance_offset. rewrite Hf0, Ho, Hd. cbn [value_is_zero].
  destruct (j =? 0); eexists; (split; [reflexivity|]); cbn;
    (split; [lia|eauto]).
Qed.

Lemma build_rounds_plain (n : nat) (st : session) :
  0 <= counter st ->
  counter st + Z.of_nat n <= Z.of_nat (length queue) ->
  forallb (plain_entry selected_tasks kitsu_shots) queue = true ->
  is_Some (frame_offset st) ->
  exists st',
    build_rounds n selected_tasks kitsu_shots queue shot_to_load st
    = (Returned (Some 0), st')
    /\ counter st' = counter st + Z.of_nat n
    /\ is_Some (frame_offset st').
Proof.
  revert st. induction n as [|n IH]; intros st Hpos Hlen Hall Hoff.
  { exists st. cbn. repeat split; [lia|exact Hoff]. }
  destruct (lookup_lt_is_Some_2 queue (Z.to_nat (counter st))) as [e He]; [lia|].
  assert (Hplain : plain_entry selected_tasks kitsu_shots e = true).
  { rewrite forallb_forall in Hall. apply Hall, list_elem_of_In.
    eapply list_elem_of_lookup_2, He. }
  destruct (build_round_plain st e Hpos He Hplain Hoff) as (st1 & Hr & Hc & Hf).
  cbn [build_rounds]. rewrite Hr.
  destruct (IH st1) as (st' & Hr' & Hc' & Hf'); [lia|lia|exact Hall|exact Hf|].
  exists st'. repeat split; [exact Hr'|lia|exact Hf'].
Qed.

(** When fewer entries are left than rounds, the call runs into the stopper
    and returns [None]. *)
Lemma build_rounds_done (k n : nat) (st : session) :
  (k < n)%nat ->
  0 <= counter st ->
  counter st + Z.of_nat k = Z.of_nat (length queue) ->
  forallb (plain_entry selected_tasks kitsu_shots) queue = true ->
  is_Some (frame_offset st) ->
  exists st',
    build_rounds n selected_tasks kitsu_shots queue shot_to_load st
    = (Returned None, st')
    /\ counter st' = Z.of_nat (length queue).
Proof.
  revert n st. induction k as [|k IH]; intros n st Hk Hpos Hlen Hall Hoff.
  - destruct n as [|n]; [lia|]. cbn [build_rounds]. unfold build_round.
    destruct (Z.leb_spec (Z.of_nat (length queue)) (counter st)); [|lia].
    eexists. split; [reflexivity|]. cbn. lia.
  - destruct n as [|n]; [lia|].
    destruct (lookup_lt_is_Some_2 queue (Z.to_nat (counter st))) as [e He]; [lia|].
    assert (Hplain : plain_entry selected_tasks kitsu_shots e = true).
    { rewrite forallb_forall in Hall. apply Hall, list_elem_of_In.
      eapply list_elem_of_lookup_2, He. }
    destruct (build_round_plain st e Hpos He Hplain Hoff) as (st1 & Hr & Hc & Hf).
    cbn [build_rounds]. rewrite Hr.
    apply IH; [lia|lia|lia|exact Hall|exact Hf].
Qed.

End Batches.

(** C3, at a queue of 13 entries that carry versions, from cursor 0 and
    without playback: the first call of [build_progressive] raises
    [TypeError] at [create_version_sequence(shot_seq, version)] with the
    cursor still at 0, so the timer ends there and the three calls that were
    to process 5, 5 and 3 entries never happen. The queue [execute] itself
    builds for one channel and 13 shots ends the first call with a
    [TypeError] as well, its task indices being characters. On the same 13
    entries without versions the cursor stands at 5, 10 and 13 after the
    three calls, the third being the one that is done; and whatever the
    arguments and the outcome, one call moves the cursor forward by at most
    5. *)
Theorem batches_stop_at_first_version :
  length Samples.thirteen_versions_queue = 13%nat
  /\ fst (build_progressive (H := Samples.externals) false ["anim"]
            Samples.three_shots Samples.thirteen_versions_queue ""
            (initial_state Samples.empty_scene))
     = Raised (TypeError "create_version_sequence() missing 1 required positional argument: 'kitsu_version'")
  /\ (fun r => (fst r, counter (snd r)))
       (run_timer (H := Samples.externals) [false; false; false] ["anim"]
          Samples.three_shots Samples.thirteen_versions_queue ""
          (initial_state Samples.empty_scene))
     = (Crashed (TypeError "create_version_sequence() missing 1 required positional argument: 'kitsu_version'"), 0)
  /\ length Samples.thirteen_loaded_queue = 13%nat
  /\ (fun r => (fst r, counter (snd r)))
       (run_timer (H := Samples.externals) [false; false; false] ["an"]
          (replicate 13 Samples.sh010) Samples.thirteen_loaded_queue ""
          (initial_state Samples.empty_scene))
     = (Crashed (TypeError "list indices must be integers or slices, not str"), 0)
  /\ (fun ticks =>
        (fun r => (fst r, counter (snd r)))
          (run_timer (H := Samples.externals) (replicate ticks false) ["anim"]
             Samples.three_shots Samples.thirteen_queue ""
             (initial_state Samples.empty_scene)))
       <$> [1; 2; 3]%nat
     = [(Pending, 5); (Pending, 10); (Done, 13)]
  /\ (forall (H : Externals) (playing : bool) (tasks : list string)
             (shots : list kitsu_shot) (q : list entry) (target : string)
             (s : session),
        0 <= counter (snd (build_progressive playing tasks shots q target s))
             - counter s <= 5).
Proof.
  split_and!; [vm_compute; reflexivity..|].
  intros H playing tasks shots q target s.
  pose proof (build_progressive_frame playing tasks shots q target s) as [_ Hc].
  cbn zeta in Hc. lia.
Qed.

(** ** Shots without duration *)

Section MissingDuration.
Context `{Externals}.

(** C7, as the code has it. A shot whose duration is [None] or 0 makes
    [create_shot_stack] raise [ValueError] with the shot's code, before any
    meta is created. [build_progressive] does not catch it: a tick whose
    current entry carries a version for such a shot raises that error with
    the cursor, the accumulator and the strips unchanged, and the timer ends
    there, so the entries after it are not processed. *)
Theorem missing_duration_stops_build (selected_tasks : list string)
    (kitsu_shots : list kitsu_shot) (queue : list entry)
    (shot_to_load : string) (later_ticks : list bool) (st : session)
    (e : entry) (task_name : string) (shot : kitsu_shot) (v : kitsu_version)
    (Hcursor : 0 <= counter st)
    (Hentry : queue !! Z.to_nat (counter st) = Some e)
    (Hversion : version e = Some v)
    (Htask : getitem_value selected_tasks (task_index e) = Returned task_name)
    (Hshot : getitem_value kitsu_shots (shot_index e) = Returned shot)
    (Hduration : truthy_int (shot_duration shot) = false) :
  let error :=
    ValueError ("Shot " +:+ format_opt (shot_code shot)
                +:+ ": 'duration' is None. Fix it in Kitsu before retrying to load.") in
  (forall channel_name bd channel_index frame_start,
      create_shot_stack channel_name bd shot channel_index frame_start
      = (Raised error, bd))
  /\ exists st',
      build_progressive false selected_tasks kitsu_shots queue shot_to_load st
      = (Raised error, st')
      /\ run_timer (false :: later_ticks) selected_tasks kitsu_shots queue
           shot_to_load st
         = (Crashed error, st')
      /\ counter st' = counter st
      /\ frame_offset st' = frame_offset st
      /\ seq_ed (data st') = seq_ed (data st).
Proof.
  intros error. split.
  { intros. by apply create_shot_stack_missing_duration. }
  assert (Hround : exists st',
    build_round selected_tasks kitsu_shots queue shot_to_load st = (Raise error, st')
    /\ counter st' = counter st /\ frame_offset st' = frame_offset st
    /\ seq_ed (data st') = seq_ed (data st)).
  { unfold build_round.
    pose proof (lookup_lt_Some _ _ _ Hentry) as Hlt.
    destruct (Z.leb_spec (Z.of_nat (length queue)) (counter st)); [lia|].
    set (st0 := if counter st mod 85 =? 0 then _ else st).
    assert (Hst0 : counter st0 = counter st /\ frame_offset st0 = frame_offset st
                   /\ seq_ed (data st0) = seq_ed (data st)).
    { subst st0. destruct (counter st mod 85 =? 0); done. }
    destruct Hst0 as (Hc0 & Hf0 & Hs0). clearbody st0.
    rewrite Hc0, (getitem_lookup queue (counter st) e Hcursor Hentry).
    rewrite Htask, Hshot, Hversion.
    unfold build_version.
    destruct (task_index e) as [|i|]; try discriminate.
    cbn [value_succ].
    rewrite (create_shot_stack_missing_duration _ _ _ _ _ Hduration).
    eexists. split; [reflexivity|]. cbn. done. }
  destruct Hround as (st' & Hr & Hc & Hf & Hs).
  exists st'. unfold run_timer, build_progressive. cbn [build_rounds].
  rewrite Hr. done.
Qed.

End MissingDuration.

Lemma missing_duration_stops_build_witness :
  exists st',
    build_progressive (H := Samples.externals) false ["anim"]
      Samples.missing_duration_shots Samples.missing_duration_queue ""
      (initial_state Samples.empty_scene)
    = (Raised (ValueError "Shot SH040: 'duration' is None. Fix it in Kitsu before retrying to load."),
       st')
    /\ counter st' = 0.
Proof.
  destruct (proj2 (missing_duration_stops_build (H := Samples.externals) ["anim"]
                     Samples.missing_duration_shots Samples.missing_duration_queue
                     "" [] (initial_state Samples.empty_scene)
                     (Samples.queue_entry 0 0 (Some Samples.v002)) "anim"
                     Samples.sh040_no_duration Samples.v002
                     ltac:(cbn; lia) eq_refl eq_refl eq_refl eq_refl eq_refl))
    as (st' & Hbuild & _ & Hcounter & _).
  exists st'. split; [exact Hbuild|exact Hcounter].
Defined.

(** C7, as the claim states it, fails: with a first shot without duration the
    first tick raises [ValueError], the timer ends, the cursor is still at 0
    and no meta exists, so the second shot of the queue is never built. *)
Lemma missing_duration_aborts_pass :
  fst (run_timer (H := Samples.externals) [false; false; false] ["anim"]
         Samples.missing_duration_shots Samples.missing_duration_queue ""
         (initial_state Samples.empty_scene))
  = Crashed (ValueError "Shot SH040: 'duration' is None. Fix it in Kitsu before retrying to load.")
  /\ counter (snd (run_timer (H := Samples.externals) [false; false; false] ["anim"]
         Samples.missing_duration_shots Samples.missing_duration_queue ""
         (initial_state Samples.empty_scene))) = 0
  /\ seq_ed (data (snd (run_timer (H := Samples.externals) [false; false; false]
         ["anim"] Samples.missing_duration_shots Samples.missing_duration_queue ""
         (initial_state Samples.empty_scene)))) = [].
Proof. vm_compute. repeat split. Qed.

(** ** Frame offsets *)

(** C5, at the input of the claim with a version on every shot: the first
    tick creates the stack of the first shot at frame 0 and then raises
    [TypeError] at the call [create_version_sequence(shot_seq, version)],
    which binds [shot_seq] to [self] and [version] to [shot_stack] and lacks
    [kitsu_version]. The cursor stays at 0, the timer ends, and the stacks of
    the second and third shot are never created. On the same shots without
    versions the accumulator runs through 24, 72 and 84 and no stack is
    created. *)
Theorem frame_offsets_at_three_shots :
  fst (build_progressive (H := Samples.externals) false ["anim"]
         Samples.three_shots Samples.three_shots_queue ""
         (initial_state Samples.empty_scene))
  = Raised (TypeError "create_version_sequence() missing 1 required positional argument: 'kitsu_version'")
  /\ counter (snd (build_progressive (H := Samples.externals) false ["anim"]
         Samples.three_shots Samples.three_shots_queue ""
         (initial_state Samples.empty_scene))) = 0
  /\ (fun m => (meta_name m, frame_final_start m, sequences m))
       <$> seq_ed (data (snd (run_timer (H := Samples.externals)
             [false; false; false] ["anim"] Samples.three_shots
             Samples.three_shots_queue "" (initial_state Samples.empty_scene))))
     = [("SH010_anim", 0, [])]
  /\ (fun st => (counter st, frame_offset st, seq_ed (data st)))
       (snd (build_progressive (H := Samples.externals) false ["anim"]
          Samples.three_shots Samples.three_shots_plain_queue ""
          (initial_state Samples.empty_scene)))
     = (3, Some 84, []).
Proof. vm_compute. repeat split. Qed.

(** ** The pending queue *)

Lemma build_mapping_unpack_fails (channels : list string) (last : string)
    (kitsu_shots : list kitsu_shot) (e : exn) :
  unpack_pair last = Raised e ->
  build_mapping (channels ++ [last]) kitsu_shots = Raised e.
Proof.
  intros Hlast. unfold build_mapping. rewrite reverse_snoc.
  cbn [channels_loop]. by rewrite Hlast.
Qed.

(** C2, at channels A, B, C selected in that order: the header
    [for i, channel in reversed(selected_channels)] takes the channel name
    "C" itself for the pair to unpack, so [execute] raises [ValueError] and
    builds no queue, with or without shots. For names of exactly two
    characters the unpacking succeeds and the queue holds the first character
    of each name where the task index belongs. *)
Theorem queue_order_at_three_channels :
  fst (execute ["A"; "B"; "C"] [] (initial_state Samples.empty_scene))
  = Raised (ValueError "not enough values to unpack (expected 2, got 1)")
  /\ (forall shots,
        build_mapping ["A"; "B"; "C"] shots
        = Raised (ValueError "not enough values to unpack (expected 2, got 1)"))
  /\ fst (execute ["fx"; "an"] [Samples.sh010; Samples.sh020]
            (initial_state Samples.empty_scene))
     = Returned
         [ {| task_index := VStr "a"; shot_index := VInt 0; version := None |};
           {| task_index := VStr "a"; shot_index := VInt 1; version := None |};
           {| task_index := VStr "f"; shot_index := VInt 0; version := None |};
           {| task_index := VStr "f"; shot_index := VInt 1; version := None |} ].
Proof.
  split; [reflexivity|]. split; [|reflexivity].
  intros shots. by apply (build_mapping_unpack_fails ["A"; "B"] "C").
Qed.

(** ** Reviews and notes *)

Section Reviews.

(** What a review that [edit_review] returns is made of. *)
Lemma edit_review_cases (available_statuses : gmap string (list string))
    (version : kitsu_version) (r : MediaReview) :
  edit_review available_statuses version = Returned (Some r) ->
  movie_path version = Some (media r)
  /\ media r <> ""
  /\ review_metadata r = ∅
  /\ match status version with
     | Some kitsu_status =>
         exists st,
           build_orio_status available_statuses (Some kitsu_status) = Returned st
           /\ review_status r = Some st
     | None => review_status r = None
     end
  /\ review_notes r = [].
Proof.
  unfold edit_review.
  destruct (movie_path version) as [clip|]; [|discriminate].
  cbn [truthy_str format_opt].
  destruct (String.eqb_spec clip "") as [|Hclip]; [discriminate|].
  cbn [negb].
  destruct (status version) as [kitsu_status|].
  - destruct (build_orio_status _ _) as [st|]; [|discriminate].
    intros [= <-]. cbn. split_and!; [done..| |done]. by exists st.
  - intros [= <-]. cbn. by split_and!.
Qed.

(** C9, as the code has it. [edit_review], which builds the review of a
    version, takes the status taxonomy and the version and nothing else: a
    review it returns has the media locator of the version, empty metadata,
    the mapped status of the version (no status for a version without one)
    and no note, its note loop running over the literal empty list. Incoming
    notes are no input of it, so none is attached, threaded or flagged. *)
Theorem reviews_hold_no_notes (available_statuses : gmap string (list string))
    (version : kitsu_version) (r : MediaReview)
    (Hreview : edit_review available_statuses version = Returned (Some r)) :
  movie_path version = Some (media r)
  /\ media r <> ""
  /\ review_metadata r = ∅
  /\ match status version with
     | Some kitsu_status =>
         exists st,
           build_orio_status available_statuses (Some kitsu_status) = Returned st
           /\ review_status r = Some st
     | None => review_status r = None
     end
  /\ review_notes r = [].
Proof. exact (edit_review_cases available_statuses version r Hreview). Qed.

End Reviews.

Lemma reviews_hold_no_notes_witness :
  edit_review Samples.statuses Samples.v001
  = Returned
      (Some {| media := "/media/SH010_anim_v001.mov"; review_metadata := ∅;
               review_status := Some {| state := "approved"; author := "" |};
               review_notes := [] |})
  /\ review_notes
       {| media := "/media/SH010_anim_v001.mov"; review_metadata := ∅;
          review_status := Some {| state := "approved"; author := "" |};
          review_notes := [] |} = [].
Proof.
  assert (Hreview : edit_review Samples.statuses Samples.v001
                    = Returned
                        (Some {| media := "/media/SH010_anim_v001.mov";
                                 review_metadata := ∅;
                                 review_status :=
                                   Some {| state := "approved"; author := "" |};
                                 review_notes := [] |}))
    by reflexivity.
  split; [exact Hreview|].
  exact (proj2 (proj2 (proj2 (proj2
           (reviews_hold_no_notes Samples.statuses Samples.v001 _ Hreview))))).
Defined.

(** C9, as the claim states it, fails: for a version and one incoming note
    whose parent is not in the batch, the review [edit_review] makes of the
    version holds no note, and [build_reviews] hands back no review at all:
    its note loop raises [NameError] at [attach_to_dl] in the first round.
    The note is neither attached at a thread root nor flagged, and nothing
    continues. *)
Lemma orphan_note_is_not_attached :
  edit_review Samples.statuses Samples.v001
  = Returned
      (Some {| media := "/media/SH010_anim_v001.mov"; review_metadata := ∅;
               review_status := Some {| state := "approved"; author := "" |};
               review_notes := [] |})
  /\ fst (build_reviews (FS := Samples.directories) Samples.statuses
            [Some Samples.v001] [Samples.orphan_note] Samples.cache_dir [])
     = Raised (NameError "attach_to_dl").
Proof. split; reflexivity. Qed.

(** ** The credential codec *)

Section Codec.

Ltac bool_cases :=
  repeat match goal with
  | |- context [?a <? ?b] => destruct (Z.ltb_spec a b)
  | |- context [?a <=? ?b] => destruct (Z.leb_spec a b)
  | |- context [?a =? ?b] => destruct (Z.eqb_spec a b)
  end.

Lemma b64_value_char (i : Z) :
  0 <= i < 64 -> b64_value (b64_char i) = Some i.
Proof.
  intros Hi. unfold b64_char, b64_value.
  bool_cases; cbn; try lia; f_equal; lia.
Qed.

Lemma b64_char_plain (i : Z) :
  0 <= i < 64 ->
  0 <= b64_char i < 128 /\ b64_char i <> 61 /\ b64_char i <> 13
  /\ b64_char i <> 10 /\ b64_char i <> 32.
Proof.
  intros Hi. unfold b64_char. bool_cases; lia.
Qed.

Lemma a2b_step (i : Z) (rest : bytes) (q lb lc : Z) (out : bytes) :
  0 <= i < 64 ->
  a2b_base64_loop (b64_char i :: rest) q lb lc out
  = if 8 <=? lb + 6 then
      a2b_base64_loop rest ((q + 1) mod 4) (lb + 6 - 8)
        ((lc * 64 + i) mod 2 ^ (lb + 6 - 8))
        (out ++ [((lc * 64 + i) / 2 ^ (lb + 6 - 8)) mod 256])
    else a2b_base64_loop rest ((q + 1) mod 4) (lb + 6) (lc * 64 + i) out.
Proof.
  intros Hi. destruct (b64_char_plain i Hi) as (Hr & H61 & H13 & H10 & H32).
  cbn [a2b_base64_loop]. unfold BASE64_PAD.
  destruct (Z.ltb_spec 127 (b64_char i)); [lia|].
  destruct (Z.eqb_spec (b64_char i) 13); [lia|].
  destruct (Z.eqb_spec (b64_char i) 10); [lia|].
  destruct (Z.eqb_spec (b64_char i) 32); [lia|].
  destruct (Z.eqb_spec (b64_char i) 61); [lia|].
  cbn [orb]. rewrite (b64_value_char i Hi). reflexivity.
Qed.

Ltac euclid := Z.div_mod_to_equations; lia.

Ltac decide_tests :=
  repeat match goal with
  | |- context [?a <? ?b] =>
      destruct (Z.ltb_spec a b); try (exfalso; euclid)
  | |- context [?a <=? ?b] =>
      destruct (Z.leb_spec a b); try (exfalso; euclid)
  | |- context [?a =? ?b] =>
      destruct (Z.eqb_spec a b); try (exfalso; euclid)
  end.

Lemma a2b_step_0 (i : Z) (rest : bytes) (q lc : Z) (out : bytes) :
  0 <= i < 64 ->
  a2b_base64_loop (b64_char i :: rest) q 0 lc out
  = a2b_base64_loop rest ((q + 1) mod 4) 6 (lc * 64 + i) out.
Proof. intros Hi. by rewrite a2b_step. Qed.

Lemma a2b_step_6 (i : Z) (rest : bytes) (q lc : Z) (out : bytes) :
  0 <= i < 64 ->
  a2b_base64_loop (b64_char i :: rest) q 6 lc out
  = a2b_base64_loop rest ((q + 1) mod 4) 4 ((lc * 64 + i) mod 16)
      (out ++ [((lc * 64 + i) / 16) mod 256]).
Proof. intros Hi. by rewrite a2b_step. Qed.

Lemma a2b_step_4 (i : Z) (rest : bytes) (q lc : Z) (out : bytes) :
  0 <= i < 64 ->
  a2b_base64_loop (b64_char i :: rest) q 4 lc out
  = a2b_base64_loop rest ((q + 1) mod 4) 2 ((lc * 64 + i) mod 4)
      (out ++ [((lc * 64 + i) / 4) mod 256]).
Proof. intros Hi. by rewrite a2b_step. Qed.

Lemma a2b_step_2 (i : Z) (rest : bytes) (q lc : Z) (out : bytes) :
  0 <= i < 64 ->
  a2b_base64_loop (b64_char i :: rest) q 2 lc out
  = a2b_base64_loop rest ((q + 1) mod 4) 0 ((lc * 64 + i) mod 1)
      (out ++ [((lc * 64 + i) / 1) mod 256]).
Proof. intros Hi. by rewrite a2b_step. Qed.

Lemma a2b_group (x y z : Z) (rest out : bytes) :
  is_byte x -> is_byte y -> is_byte z ->
  a2b_base64_loop
    (b64_char (x / 4) :: b64_char ((x mod 4) * 16 + y / 16)
     :: b64_char ((y mod 16) * 4 + z / 64) :: b64_char (z mod 64) :: rest)
    0 0 0 out
  = a2b_base64_loop rest 0 0 0 (out ++ [x; y; z]).
Proof.
  unfold is_byte. intros Hx Hy Hz.
  rewrite a2b_step_0 by euclid.
  rewrite a2b_step_6 by euclid.
  rewrite a2b_step_4 by euclid.
  rewrite a2b_step_2 by euclid.
  rewrite <- !app_assoc. cbn [app].
  f_equal; [euclid|].
  do 2 f_equal; [euclid|]. f_equal; [euclid|]. f_equal. euclid.
Qed.

Lemma a2b_last_one (x : Z) (out : bytes) :
  is_byte x ->
  a2b_base64_loop
    [b64_char (x / 4); b64_char ((x mod 4) * 16); BASE64_PAD; BASE64_PAD]
    0 0 0 out
  = Some (out ++ [x]).
Proof.
  unfold is_byte. intros Hx.
  rewrite a2b_step_0 by euclid.
  rewrite a2b_step_6 by euclid.
  cbn. do 3 f_equal. euclid.
Qed.

Lemma a2b_last_two (x y : Z) (out : bytes) :
  is_byte x -> is_byte y ->
  a2b_base64_loop
    [b64_char (x / 4); b64_char ((x mod 4) * 16 + y / 16);
     b64_char ((y mod 16) * 4); BASE64_PAD]
    0 0 0 out
  = Some (out ++ [x; y]).
Proof.
  unfold is_byte. intros Hx Hy.
  rewrite a2b_step_0 by euclid.
  rewrite a2b_step_6 by euclid.
  rewrite a2b_step_4 by euclid.
  cbn. rewrite <- !app_assoc. cbn [app].
  do 3 f_equal; [euclid|]. f_equal. euclid.
Qed.

Lemma list_ind3 {A} (P : list A -> Prop) :
  P [] -> (forall x, P [x]) -> (forall x y, P [x; y]) ->
  (forall x y z l, P l -> P (x :: y :: z :: l)) ->
  forall l, P l.
Proof.
  intros H0 H1 H2 H3 l.
  enough (P l /\ (forall x, P (x :: l)) /\ (forall x y, P (x :: y :: l))) by tauto.
  induction l as [|a l (IH0 & IH1 & IH2)]; [by auto|].
  split; [apply IH1|]. split; [intros x; apply IH2|].
  intros x y. by apply H3.
Qed.

Lemma a2b_b64encode (b : bytes) :
  Forall is_byte b ->
  forall out, a2b_base64_loop (b64encode b) 0 0 0 out = Some (out ++ b).
Proof.
  induction b as [|x|x y|x y z rest IH] using list_ind3; intros Hb out.
  - cbn. by rewrite app_nil_r.
  - apply Forall_cons in Hb as [Hx _]. by apply a2b_last_one.
  - apply Forall_cons in Hb as [Hx Hb]. apply Forall_cons in Hb as [Hy _].
    by apply a2b_last_two.
  - apply Forall_cons in Hb as [Hx Hb]. apply Forall_cons in Hb as [Hy Hb].
    apply Forall_cons in Hb as [Hz Hb].
    cbn [b64encode]. rewrite a2b_group by assumption.
    rewrite (IH Hb). by rewrite <- app_assoc.
Qed.

Lemma b64encode_ascii (b : bytes) :
  Forall is_byte b -> Forall (fun c => 0 <= c < 128) (b64encode b).
Proof.
  induction b as [|x|x y|x y z rest IH] using list_ind3; intros Hb.
  - constructor.
  - apply Forall_cons in Hb as [Hx _]. unfold is_byte in Hx. cbn.
    repeat constructor; try apply b64_char_plain; try euclid; unfold BASE64_PAD; lia.
  - apply Forall_cons in Hb as [Hx Hb]. apply Forall_cons in Hb as [Hy _].
    unfold is_byte in *. cbn.
    repeat constructor; try apply b64_char_plain; try euclid; unfold BASE64_PAD; lia.
  - apply Forall_cons in Hb as [Hx Hb]. apply Forall_cons in Hb as [Hy Hb].
    apply Forall_cons in Hb as [Hz Hb]. unfold is_byte in *.
    cbn [b64encode].
    repeat (apply Forall_cons; split); try apply b64_char_plain; try euclid.
    by apply IH.
Qed.

Lemma b64encode_nil (b : bytes) : b64encode b = [] -> b = [].
Proof. destruct b as [|x [|y [|z rest]]]; cbn; congruence. Qed.

Lemma utf8_decode_ascii (b : bytes) :
  Forall (fun c => 0 <= c < 128) b -> utf8_decode b = Some b.
Proof.
  induction 1 as [|c rest Hc _ IH]; [reflexivity|].
  cbn [utf8_decode].
  destruct (Z.leb_spec 0 c); [|lia]. destruct (Z.ltb_spec c 128); [|lia].
  cbn. by rewrite IH.
Qed.

Lemma forallb_ascii (s : str) :
  Forall (fun c => 0 <= c < 128) s ->
  forallb (fun c => (0 <=? c) && (c <? 0x80)) s = true.
Proof.
  induction 1 as [|c rest Hc _ IH]; [reflexivity|].
  cbn. rewrite IH.
  destruct (Z.leb_spec 0 c); [|lia]. destruct (Z.ltb_spec c 128); [|lia].
  reflexivity.
Qed.

Lemma utf8_encode_char_bytes (c : Z) (b : bytes) :
  utf8_encode_char c = Some b -> Forall is_byte b.
Proof.
  unfold utf8_encode_char, is_scalar, is_byte.
  decide_tests; cbn; intros [= <-]; repeat constructor; euclid.
Qed.

Lemma utf8_decode_encode_char (c : Z) (b rest : bytes) :
  utf8_encode_char c = Some b ->
  utf8_decode (b ++ rest) = cons c <$> utf8_decode rest.
Proof.
  unfold utf8_encode_char, is_scalar.
  decide_tests; cbn [negb andb orb]; intros [= <-]; cbn [app utf8_decode];
    unfold is_cont, is_scalar; decide_tests; cbn [negb andb orb];
    try reflexivity; do 2 f_equal; euclid.
Qed.

Lemma utf8_encode_char_scalar (c : Z) :
  is_scalar c = true -> exists b, utf8_encode_char c = Some b /\ b <> [].
Proof.
  intros Hc. unfold utf8_encode_char. rewrite Hc. cbn [negb].
  repeat match goal with
         | |- context [if ?t then _ else _] => destruct t
         end; eexists; (split; [reflexivity|discriminate]).
Qed.

Lemma utf8_encode_scalar (p : str) :
  forallb is_scalar p = true ->
  exists b, utf8_encode p = Some b /\ Forall is_byte b
            /\ utf8_decode b = Some p /\ (b = [] -> p = []).
Proof.
  induction p as [|c rest IH]; intros Hp.
  { exists []. repeat split; constructor. }
  cbn in Hp. apply andb_prop in Hp as [Hc Hrest].
  destruct (utf8_encode_char_scalar c Hc) as (bc & Hbc & Hne).
  destruct (IH Hrest) as (br & Hbr & Hbytes & Hdec & _).
  exists (bc ++ br). cbn [utf8_encode]. rewrite Hbc, Hbr.
  repeat split.
  - apply Forall_app. split; [by eapply utf8_encode_char_bytes|exact Hbytes].
  - rewrite (utf8_decode_encode_char c bc br Hbc), Hdec. reflexivity.
  - intros Hnil. apply app_eq_nil in Hnil as [? _]. contradiction.
Qed.

(** C10. For every string of Unicode scalar values, [encode_password]
    returns a stored value that [decode_password] maps back to the string;
    and [decode_password] of the empty stored value returns the empty string
    without raising. *)
Theorem password_round_trip (password : str)
    (Hscalar : forallb is_scalar password = true) :
  (exists stored,
      encode_password password = Returned stored
      /\ decode_password stored = Returned password)
  /\ decode_password [] = Returned [].
Proof.
  split; [|reflexivity].
  destruct (utf8_encode_scalar password Hscalar) as (b & Hb & Hbytes & Hdec & Hnil).
  exists (b64encode b). unfold encode_password. rewrite Hb.
  pose proof (b64encode_ascii b Hbytes) as Hascii.
  rewrite (utf8_decode_ascii _ Hascii). split; [reflexivity|].
  pose proof (a2b_b64encode b Hbytes []) as Hloop. cbn [app] in Hloop.
  unfold decode_password.
  destruct (b64encode b) as [|c0 s] eqn:Hs.
  - apply b64encode_nil in Hs. by rewrite (Hnil Hs).
  - unfold b64decode. by rewrite (forallb_ascii _ Hascii), Hloop, Hdec.
Qed.

End Codec.

Lemma password_round_trip_witness :
  exists stored,
    encode_password [8364; 128512; 233] = Returned stored
    /\ decode_password stored = Returned [8364; 128512; 233].
Proof.
  apply (proj1 (password_round_trip [8364; 128512; 233] eq_refl)).
Defined.

(** * Further properties of the modelled code *)

(** ** More on the status mapping *)

Section StatusMappingMore.

(** X1. [build_orio_status] raises exactly when the key "rejected" is
    missing, or the key "approved" is missing and the status is not a
    rejected one; whenever it returns, the author is empty and the state is
    one of "rejected", "approved" and "waiting review". *)
Theorem build_orio_status_raises_iff
    (available_statuses : gmap string (list string))
    (version_status : option string) :
  (is_raised (build_orio_status available_statuses version_status) = true
   <-> available_statuses !! "rejected" = None
       \/ (available_statuses !! "approved" = None
           /\ forall rejected, available_statuses !! "rejected" = Some rejected ->
                contains rejected version_status = false))
  /\ (forall st, build_orio_status available_statuses version_status = Returned st ->
        author st = ""
        /\ (state st = "rejected" \/ state st = "approved"
            \/ state st = "waiting review")).
Proof.
  unfold build_orio_status.
  destruct (available_statuses !! "rejected") as [rejected|];
    [|split; [split; [by left|done]|done]].
  destruct (contains rejected version_status) eqn:Hrej.
  { split.
    - split; [done|]. intros [?|[_ Hn]]; [done|]. by rewrite (Hn rejected) in Hrej.
    - intros st [= <-]. cbn. auto. }
  destruct (available_statuses !! "approved") as [approved|].
  - split.
    + split; [by destruct (contains approved version_status)|].
      intros [?|[? _]]; done.
    + destruct (contains approved version_status); intros st [= <-]; cbn; auto.
  - split; [|done]. split; [|done]. intros _. right. split; [done|].
    by intros ? [= <-].
Qed.

(** X2. A status listed as rejected maps to "rejected" even when it is also
    listed as approved, and even when the key "approved" is missing: the
    rejected list is consulted first. *)
Theorem rejected_takes_precedence
    (available_statuses : gmap string (list string))
    (rejected : list string) (raw : string)
    (Hrejected : available_statuses !! "rejected" = Some rejected)
    (Hin : raw ∈ rejected) :
  build_orio_status available_statuses (Some raw)
  = Returned {| state := "rejected"; author := "" |}.
Proof.
  unfold build_orio_status. rewrite Hrejected.
  unfold contains. by rewrite (bool_decide_eq_true_2 _ Hin).
Qed.

End StatusMappingMore.

Lemma rejected_takes_precedence_witness :
  build_orio_status
    (<["approved" := ["retake"]]> (<["rejected" := ["retake"]]> ∅)) (Some "retake")
  = Returned {| state := "rejected"; author := "" |}.
Proof.
  apply (rejected_takes_precedence _ ["retake"] "retake").
  - reflexivity.
  - apply list_elem_of_singleton. reflexivity.
Defined.

(** ** More on shot stacks and version strips *)

Section ShotStackMore.


(** X3. [create_shot_stack] raises exactly when the shot's duration is
    [None] or 0 or the start frame is [None], and then leaves the Blender
    data untouched; otherwise it appends exactly one meta, which it returns,
    named after shot and channel, on the given channel and start frame, with
    the shot's duration and no strip inside, and keeps the metas that were
    there. *)
Theorem create_shot_stack_outcome (channel_name : string) (bd : blend_data)
    (shot : kitsu_shot) (channel_index : Z) (frame_start : option Z) :
  (is_raised (fst (create_shot_stack channel_name bd shot channel_index frame_start))
   = true
   <-> truthy_int (shot_duration shot) = false \/ frame_start = None)
  /\ (forall e bd',
        create_shot_stack channel_name bd shot channel_index frame_start
        = (Raised e, bd') -> bd' = bd)
  /\ (forall ref bd',
        create_shot_stack channel_name bd shot channel_index frame_start
        = (Returned ref, bd') ->
        ref = length (seq_ed bd)
        /\ tracks bd' = tracks bd
        /\ exists m,
            seq_ed bd' = seq_ed bd ++ [m]
            /\ meta_name m = get_shot_seq_name channel_name shot
            /\ meta_channel m = channel_index
            /\ Some (frame_final_start m) = frame_start
            /\ Some (frame_final_duration m) = shot_duration shot
            /\ meta_kitsu_shot m = Some shot
            /\ sequences m = []).
Proof.
  unfold create_shot_stack.
  destruct (truthy_int (shot_duration shot)) eqn:Ht; cbn [negb].
  - destruct frame_start as [start|], (shot_duration shot) as [d|] eqn:Hd;
      try discriminate; cbn [fst is_raised].
    + split; [split; [done|intros [?|?]; done]|]. split; [done|].
      intros ref bd' [= <- <-]. split; [done|]. split; [done|].
      eexists. split; [reflexivity|]. done.
    + split; [split; [by right|done]|]. split; [|done]. by intros e bd' [= _ <-].
  - cbn [fst is_raised]. split; [split; [by left|done]|].
    split; [|done]. by intros e bd' [= _ <-].
Qed.


End ShotStackMore.

Lemma create_shot_stack_outcome_witness :
  is_raised (fst (create_shot_stack "anim" Samples.empty_scene
                    Samples.sh040_no_duration 1 (Some 0))) = true.
Proof.
  apply (proj1 (create_shot_stack_outcome "anim" Samples.empty_scene
                  Samples.sh040_no_duration 1 (Some 0))).
  left. reflexivity.
Defined.


Section VersionSequenceMore.
Context `{Externals}.

(** The channel a new strip is put on: the one asked for, or the first free
    one above the strips of the stack when none (or 0) is given. *)
Lemma create_version_sequence_cases {Self : Type} (self : Self)
    (shot_stack : meta) (kv : kitsu_version) (channel_index : option Z)
    (try_download : bool) :
  create_version_sequence self shot_stack kv channel_index try_download
  = (Returned None, shot_stack)
  \/ exists s,
      (get_version_seq_name kv ∉ seq_name <$> sequences shot_stack)
      /\ seq_name s = get_version_seq_name kv
      /\ seq_frame_start s = frame_final_start shot_stack
      /\ seq_channel s
         = match channel_index with
           | Some c =>
               if c =? 0 then Z.of_nat (length (sequences shot_stack)) + 1 else c
           | None => Z.of_nat (length (sequences shot_stack)) + 1
           end
      /\ Some (seq_filepath s) = resolve_clip_path kv try_download
      /\ stax_media_info s = true
      /\ seq_lock s = false /\ to_build_notes s = false
      /\ ((exists e,
             build_orio_status get_kitsu_statuses (status kv) = Raised e
             /\ current_status s = None /\ seq_kitsu_version s = None
             /\ create_version_sequence self shot_stack kv channel_index try_download
                = (Raised e, with_sequences shot_stack (sequences shot_stack ++ [s])))
          \/ (exists st,
                build_orio_status get_kitsu_statuses (status kv) = Returned st
                /\ current_status s = Some (state st)
                /\ seq_kitsu_version s = Some kv
                /\ create_version_sequence self shot_stack kv channel_index try_download
                   = (Returned (Some (length (sequences shot_stack))),
                      with_sequences shot_stack (sequences shot_stack ++ [s])))).
Proof.
  unfold create_version_sequence.
  destruct (bool_decide_reflect
              (get_version_seq_name kv ∈ seq_name <$> sequences shot_stack))
    as [Hin|Hin]; [by left|].
  cbn [orb].
  destruct (bool_decide _); [by left|].
  destruct (truthy_str (resolve_clip_path kv try_download)) eqn:Hpath;
    [|by left].
  cbn [negb].
  destruct (resolve_clip_path kv try_download) as [path|] eqn:Hresolve;
    [|discriminate].
  cbn [format_opt].
  destruct (host_new_strip _ _ _ _ _); [|by left]. cbn [negb].
  right.
  destruct (build_orio_status get_kitsu_statuses (status kv)) as [st|e] eqn:Hst.
  - match goal with
    | |- context [with_sequences _ (_ ++ [?s])] => exists s
    end.
    split_and!; try done. right. exists st. by split_and!.
  - match goal with
    | |- context [with_sequences _ (_ ++ [?s])] => exists s
    end.
    split_and!; try done. left. exists e. by split_and!.
Qed.

(** X5. When [create_version_sequence] returns a strip, the stack has grown
    by exactly that strip, placed last: it is named after the version, whose
    name was not in the stack, starts where the stack starts, sits on the
    channel asked for (or on the channel after the number of strips when none
    or 0 is given), carries the version and its mapped status, and the strips
    that were there are kept. When it returns [None], the stack is
    unchanged. *)
Theorem create_version_sequence_returns {Self : Type} (self : Self)
    (shot_stack after : meta) (kv : kitsu_version) (channel_index : option Z)
    (try_download : bool) (result : option nat)
    (Hcall : create_version_sequence self shot_stack kv channel_index try_download
             = (Returned result, after)) :
  match result with
  | None => after = shot_stack
  | Some i =>
      i = length (sequences shot_stack)
      /\ (get_version_seq_name kv ∉ seq_name <$> sequences shot_stack)
      /\ meta_name after = meta_name shot_stack
      /\ frame_final_start after = frame_final_start shot_stack
      /\ frame_final_duration after = frame_final_duration shot_stack
      /\ exists s st,
          sequences after = sequences shot_stack ++ [s]
          /\ seq_name s = get_version_seq_name kv
          /\ seq_frame_start s = frame_final_start shot_stack
          /\ seq_channel s
             = match channel_index with
               | Some c =>
                   if c =? 0 then Z.of_nat (length (sequences shot_stack)) + 1 else c
               | None => Z.of_nat (length (sequences shot_stack)) + 1
               end
          /\ seq_kitsu_version s = Some kv
          /\ build_orio_status get_kitsu_statuses (status kv) = Returned st
          /\ current_status s = Some (state st)
  end.
Proof.
  destruct (create_version_sequence_cases self shot_stack kv channel_index
              try_download)
    as [Hnone|(s & Hfresh & Hname & Hstart & Hchannel & _ & _ & _ & _ & Hcase)].
  - rewrite Hnone in Hcall. by injection Hcall as <- <-.
  - destruct Hcase as [(e & _ & _ & _ & Heq)|(st & Hst & Hcur & Hkv & Heq)];
      rewrite Heq in Hcall; [discriminate|].
    injection Hcall as <- <-. repeat split; try done.
    exists s, st. by repeat split.
Qed.

(** X6. The names of the strips of a shot stack stay pairwise distinct under
    [create_version_sequence], whatever its outcome. *)
Theorem create_version_sequence_keeps_names_distinct {Self : Type} (self : Self)
    (shot_stack : meta) (kv : kitsu_version) (channel_index : option Z)
    (try_download : bool)
    (Hdistinct : NoDup (seq_name <$> sequences shot_stack)) :
  NoDup (seq_name <$> sequences
           (snd (create_version_sequence self shot_stack kv channel_index
                   try_download))).
Proof.
  destruct (create_version_sequence_cases self shot_stack kv channel_index
              try_download)
    as [Hnone|(s & Hfresh & Hname & _ & _ & _ & _ & _ & _ & Hcase)].
  - by rewrite Hnone.
  - assert (Hgoal : NoDup (seq_name <$> (sequences shot_stack ++ [s]))).
    { rewrite fmap_app. apply NoDup_app. repeat split; [done| |apply NoDup_singleton].
      intros x Hx Hx'. cbn in Hx'. apply list_elem_of_singleton in Hx'.
      subst x. by rewrite Hname in Hx. }
    destruct Hcase as [(e & _ & _ & _ & ->)|(st & _ & _ & _ & ->)]; exact Hgoal.
Qed.

(** X7. Whenever [create_version_sequence] raises, which it only does with
    the [TypeError] of the status mapping, the strip is already in the stack,
    without status and without version; and calling it again for the same
    version returns [None] and leaves that strip as it is. *)
Theorem create_version_sequence_raises_late {Self : Type} (self : Self)
    (shot_stack after : meta) (kv : kitsu_version) (channel_index : option Z)
    (try_download : bool) (e : exn)
    (Hcall : create_version_sequence self shot_stack kv channel_index try_download
             = (Raised e, after)) :
  build_orio_status get_kitsu_statuses (status kv) = Raised e
  /\ (exists s,
        sequences after = sequences shot_stack ++ [s]
        /\ seq_name s = get_version_seq_name kv
        /\ current_status s = None
        /\ seq_kitsu_version s = None)
  /\ create_version_sequence self after kv channel_index try_download
     = (Returned None, after).
Proof.
  destruct (create_version_sequence_cases self shot_stack kv channel_index
              try_download)
    as [Hnone|(s & Hfresh & Hname & _ & _ & _ & _ & _ & _ & Hcase)].
  - rewrite Hnone in Hcall. discriminate.
  - destruct Hcase as [(e' & Hst & Hcur & Hkv & Heq)|(st & _ & _ & _ & Heq)];
      rewrite Heq in Hcall; [|discriminate].
    injection Hcall as <- <-. split; [done|]. split.
    + exists s. by repeat split.
    + apply create_version_sequence_existing. left.
      cbn [with_sequences sequences]. rewrite fmap_app. apply elem_of_app.
      right. cbn. rewrite Hname. by apply list_elem_of_singleton.
Qed.

End VersionSequenceMore.

(** ** More on reviews *)

Section ReviewsMore.
Context `{Externals} {FS : FileSystem}.

(** X8. For a version with a media locator, the [current_status] of the
    strip [create_version_sequence] creates and the state of the status of
    the review [edit_review] builds agree when the version has a status and
    both use the same status taxonomy; for a version without status the
    strip is marked "waiting review". *)
Theorem review_and_strip_status {Self : Type} (self : Self)
    (shot_stack after : meta) (kv : kitsu_version) (channel_index : option Z)
    (try_download : bool) (i : nat) (s : sequence) (r : MediaReview)
    (Hstrip : create_version_sequence self shot_stack kv channel_index try_download
              = (Returned (Some i), after))
    (Hs : sequences after !! i = Some s)
    (Hreview : edit_review get_kitsu_statuses kv = Returned (Some r)) :
  match status kv with
  | Some _ => current_status s = state <$> review_status r
  | None => current_status s = Some "waiting review"
  end.
Proof.
  destruct (create_version_sequence_cases self shot_stack kv channel_index
              try_download)
    as [Hnone|(s' & _ & _ & _ & _ & _ & _ & _ & _ & Hcase)];
    [rewrite Hnone in Hstrip; discriminate|].
  destruct Hcase as [(e & _ & _ & _ & Heq)|(st & Hst & Hcur & _ & Heq)];
    rewrite Heq in Hstrip; [discriminate|].
  injection Hstrip as <- <-. cbn [with_sequences sequences] in Hs.
  rewrite lookup_app_r in Hs by lia. rewrite Nat.sub_diag in Hs.
  injection Hs as <-.
  unfold edit_review in Hreview.
  destruct (negb (truthy_str (movie_path kv))); [discriminate|].
  destruct (status kv) as [kitsu_status|].
  - rewrite Hst in Hreview. injection Hreview as <-. by rewrite Hcur.
  - rewrite Hcur. f_equal.
    unfold build_orio_status in Hst.
    destruct (get_kitsu_statuses !! "rejected"); [|discriminate].
    cbn [contains] in Hst.
    destruct (get_kitsu_statuses !! "approved"); [|discriminate].
    by injection Hst as <-.
Qed.

(** The loop of [build_reviews] returns only past versions that are all
    missing, and then hands [created_reviews] back as it was. *)
Lemma build_reviews_loop_returns (available_statuses : gmap string (list string))
    (kitsu_notes : list kitsu_note) (versions : list (option kitsu_version)) :
  forall (i : nat) (created : list (option MediaReview)) (attachs : list string)
         (result : list (option MediaReview)),
    build_reviews_loop available_statuses kitsu_notes i versions created attachs
    = Returned result ->
    Forall (fun v => v = None) versions /\ result = created.
Proof.
  induction versions as [|[version|] rest IH]; intros i created attachs result Hloop;
    cbn [build_reviews_loop] in Hloop.
  - injection Hloop as <-. by split.
  - destruct (collect_attachments kitsu_notes attachs); [|discriminate].
    destruct (edit_review available_statuses version); [|discriminate].
    destruct (setitem created i _); discriminate.
  - destruct (IH _ _ _ _ Hloop) as [Hrest ->]. split; [|done].
    by apply Forall_cons.
Qed.

(** Past missing versions alone the loop returns. *)
Lemma build_reviews_loop_all_missing
    (available_statuses : gmap string (list string))
    (kitsu_notes : list kitsu_note) (versions : list (option kitsu_version)) :
  Forall (fun v => v = None) versions ->
  forall (i : nat) (created : list (option MediaReview)) (attachs : list string),
    build_reviews_loop available_statuses kitsu_notes i versions created attachs
    = Returned created.
Proof.
  induction 1 as [|v rest -> _ IH]; intros i created attachs; [done|].
  cbn [build_reviews_loop]. apply IH.
Qed.

(** The loop of [build_reviews] over the missing versions in front. *)
Lemma build_reviews_loop_missing (available_statuses : gmap string (list string))
    (kitsu_notes : list kitsu_note) (n : nat)
    (versions : list (option kitsu_version)) :
  forall (i : nat) (created : list (option MediaReview)) (attachs : list string),
    build_reviews_loop available_statuses kitsu_notes i
      (replicate n None ++ versions) created attachs
    = build_reviews_loop available_statuses kitsu_notes (i + n) versions
        created attachs.
Proof.
  induction n as [|n IH]; intros i created attachs; cbn [replicate app].
  - by rewrite Nat.add_0_r.
  - cbn [build_reviews_loop]. rewrite IH. f_equal. lia.
Qed.

(** The loop of [build_reviews] at a version that is present. *)
Lemma build_reviews_loop_present (available_statuses : gmap string (list string))
    (kitsu_notes : list kitsu_note) (version : kitsu_version)
    (rest : list (option kitsu_version)) (i : nat)
    (created : list (option MediaReview)) (attachs : list string) :
  (i < length created)%nat ->
  build_reviews_loop available_statuses kitsu_notes i (Some version :: rest)
    created attachs
  = match kitsu_notes with
    | _ :: _ => Raised (NameError "attach_to_dl")
    | [] =>
        match edit_review available_statuses version with
        | Raised e => Raised e
        | Returned _ => Raised (NameError "Process")
        end
    end.
Proof.
  intros Hi. cbn [build_reviews_loop].
  destruct kitsu_notes as [|note notes]; [|done]. cbn [collect_attachments].
  destruct (edit_review available_statuses version); [|done].
  unfold setitem. by destruct (decide (i < length created)%nat).
Qed.

(** What is known once [build_reviews] has returned. *)
Lemma build_reviews_returned (available_statuses : gmap string (list string))
    (kitsu_versions : list (option kitsu_version))
    (kitsu_notes : list kitsu_note) (cache_dir : path) (files files' : fs)
    (created : list (option MediaReview)) :
  build_reviews available_statuses kitsu_versions kitsu_notes cache_dir files
  = (Returned created, files') ->
  make_dirs cache_dir files = (Returned tt, files')
  /\ Forall (fun v => v = None) kitsu_versions
  /\ created = replicate (length kitsu_versions) None.
Proof.
  unfold build_reviews. intros Hbuilt.
  destruct (make_dirs cache_dir files) as [[[]|e] files1]; [|discriminate].
  injection Hbuilt as Hloop <-.
  apply build_reviews_loop_returns in Hloop as [Hmissing ->]. by split_and!.
Qed.

(** X9. [build_reviews] hands back no review: when it returns, the two
    directories were there or could be made, every element of
    [kitsu_versions] is a missing version, and the result holds [None] once
    for each of them. *)
Theorem build_reviews_returns_no_review
    (available_statuses : gmap string (list string))
    (kitsu_versions : list (option kitsu_version))
    (kitsu_notes : list kitsu_note) (cache_dir : path) (files files' : fs)
    (created : list (option MediaReview))
    (Hbuilt : build_reviews available_statuses kitsu_versions kitsu_notes
                cache_dir files
              = (Returned created, files')) :
  make_dirs cache_dir files = (Returned tt, files')
  /\ Forall (fun v => v = None) kitsu_versions
  /\ created = replicate (length kitsu_versions) None.
Proof.
  exact (build_reviews_returned available_statuses kitsu_versions kitsu_notes
           cache_dir files files' created Hbuilt).
Qed.

(** X11. [build_reviews] raises exactly when one of the two directories
    cannot be made or some version is present. With the directories in
    place, the first version present decides the exception: [NameError] for
    [attach_to_dl] when a note comes in; without notes the exception of
    [edit_review] when it raises, and otherwise [NameError] for [Process]. *)
Theorem build_reviews_raises_iff (available_statuses : gmap string (list string))
    (kitsu_versions : list (option kitsu_version))
    (kitsu_notes : list kitsu_note) (cache_dir : path) (files : fs) :
  (is_raised (fst (build_reviews available_statuses kitsu_versions kitsu_notes
                     cache_dir files)) = true
   <-> is_raised (fst (make_dirs cache_dir files)) = true
       \/ exists version, Some version ∈ kitsu_versions)
  /\ (forall (n : nat) (version : kitsu_version)
             (rest : list (option kitsu_version)),
        kitsu_versions = replicate n None ++ Some version :: rest ->
        is_raised (fst (make_dirs cache_dir files)) = false ->
        fst (build_reviews available_statuses kitsu_versions kitsu_notes
               cache_dir files)
        = match kitsu_notes with
          | _ :: _ => Raised (NameError "attach_to_dl")
          | [] =>
              match edit_review available_statuses version with
              | Raised e => Raised e
              | Returned _ => Raised (NameError "Process")
              end
          end).
Proof.
  assert (Hfirst : forall (n : nat) (version : kitsu_version)
                          (rest : list (option kitsu_version)),
             kitsu_versions = replicate n None ++ Some version :: rest ->
             is_raised (fst (make_dirs cache_dir files)) = false ->
             fst (build_reviews available_statuses kitsu_versions kitsu_notes
                    cache_dir files)
             = match kitsu_notes with
               | _ :: _ => Raised (NameError "attach_to_dl")
               | [] =>
                   match edit_review available_statuses version with
                   | Raised e => Raised e
                   | Returned _ => Raised (NameError "Process")
                   end
               end).
  { intros n version rest Hversions Hdirs. unfold build_reviews.
    destruct (make_dirs cache_dir files) as [[[]|e] files1]; [|discriminate].
    cbn [fst]. rewrite Hversions at 1. rewrite build_reviews_loop_missing.
    apply build_reviews_loop_present.
    rewrite length_replicate, Hversions, length_app, length_replicate.
    cbn [length]. lia. }
  split; [|exact Hfirst]. split.
  - intros Hraised.
    destruct (is_raised (fst (make_dirs cache_dir files))) eqn:Hdirs; [by left|].
    right. unfold build_reviews in Hraised.
    destruct (make_dirs cache_dir files) as [[[]|e] files1]; [|discriminate].
    cbn [fst] in Hraised.
    destruct (build_reviews_loop _ _ _ _ _ _) as [result|e] eqn:Hloop;
      [discriminate|].
    destruct (decide (Forall (fun v => v = None) kitsu_versions)) as [Hall|Hsome].
    + by rewrite build_reviews_loop_all_missing in Hloop.
    + apply not_Forall_Exists in Hsome; [|intros v; apply _].
      apply Exists_exists in Hsome as ([version|] & Hin & Hv).
      * by exists version.
      * by destruct Hv.
  - intros [Hdirs|[version Hin]].
    + unfold build_reviews.
      by destruct (make_dirs cache_dir files) as [[[]|e] files1].
    + destruct (build_reviews available_statuses kitsu_versions kitsu_notes
                  cache_dir files) as [[created|e] files'] eqn:Hbuilt; [|done].
      apply build_reviews_returned in Hbuilt as (_ & Hmissing & _).
      rewrite Forall_forall in Hmissing. by specialize (Hmissing _ Hin).
Qed.

End ReviewsMore.

(** ** More on the pending queue *)

Section QueueMore.

Lemma unpack_pair_two (c : string) :
  String.length c = 2%nat ->
  exists second, unpack_pair c = Returned (Shapes.head_char c, second).
Proof.
  destruct c as [|a [|b [|? ?]]]; try discriminate. intros _. by eexists.
Qed.

Lemma unpack_pair_other (c : string) :
  String.length c <> 2%nat -> exists e, unpack_pair c = Raised e.
Proof.
  destruct c as [|a [|b [|? ?]]]; try done; intros _; by eexists.
Qed.

Lemma setitem_app_replicate {A} (done : list A) (n : nat) (x y : A) :
  setitem (done ++ replicate (S n) y) (length done) x
  = Returned (done ++ [x] ++ replicate n y).
Proof.
  unfold setitem. rewrite length_app, length_replicate.
  destruct (decide _) as [_|]; [|lia]. f_equal.
  rewrite insert_app_r_alt by lia. by rewrite Nat.sub_diag.
Qed.

Lemma mjoin_cons {A} (x : list A) (l : list (list A)) :
  mjoin (x :: l) = x ++ mjoin l.
Proof. reflexivity. Qed.

Lemma setitem_replicate_app {A} (n m : nat) (a x y : A) :
  setitem (replicate n a ++ replicate (S m) y) n x
  = Returned (replicate n a ++ [x] ++ replicate m y).
Proof.
  pose proof (setitem_app_replicate (replicate n a) m x y) as Hs.
  by rewrite length_replicate in Hs.
Qed.

(** The inner loop, started with a string in [i], fills the next slots. *)
Lemma shots_loop_unpacked (c : string) (shots : list kitsu_shot) :
  forall (j k : nat) (ms : mapping_state) (done : list entry) (fe : Z),
    Shapes.filled ms done (length shots + k) fe ->
    exists ms',
      shots_loop (VStr c) j shots ms = Returned ms'
      /\ Shapes.filled ms'
           (done ++ ((fun j' => {| task_index := VStr c;
                                   shot_index := VInt (Z.of_nat j');
                                   version := None |})
                       <$> seq j (length shots)))
           k fe.
Proof.
  induction shots as [|shot rest IH]; intros j k ms done fe Hms.
  { exists ms. split; [done|]. cbn. by rewrite app_nil_r. }
  destruct Hms as (Hmap & Hlast & Hfe & Hidx).
  cbn [shots_loop length Nat.add]. unfold shots_loop_body.
  cbn [value_is_zero]. rewrite Hmap, Hlast, Hidx.
  cbn [length Nat.add]. rewrite setitem_app_replicate.
  rewrite setitem_replicate_app.
  edestruct (IH (S j) k) as (ms' & Hloop & Hms'); [|rewrite Hloop].
  { split_and!; cbn [editing_versions_mapping last_versions scene_frame_end
                     version_index].
    - rewrite (app_assoc done). reflexivity.
    - rewrite length_app. cbn [length].
      rewrite (replicate_add (length done) 1). by rewrite <- app_assoc.
    - exact Hfe.
    - rewrite length_app. cbn [length]. lia. }
  exists ms'. split; [done|].
  cbn [seq fmap list_fmap]. by rewrite <- app_assoc in Hms'.
Qed.

(** The outer loop over channel names of two characters. *)
Lemma channels_loop_unpacked (kitsu_shots : list kitsu_shot)
    (reversed_channels : list string) :
  Forall (fun c => String.length c = 2%nat) reversed_channels ->
  forall (k : nat) (ms : mapping_state) (done : list entry) (fe : Z),
    Shapes.filled ms done (length reversed_channels * length kitsu_shots + k) fe ->
    exists ms',
      channels_loop reversed_channels kitsu_shots ms = Returned ms'
      /\ Shapes.filled ms'
           (done ++ mjoin ((fun c => Shapes.channel_entries
                                      (VStr (Shapes.head_char c))
                                      (length kitsu_shots))
                             <$> reversed_channels))
           k fe.
Proof.
  induction 1 as [|c rest Hc _ IH]; intros k ms done fe Hms.
  { exists ms. split; [done|]. cbn. by rewrite app_nil_r. }
  cbn [channels_loop].
  destruct (unpack_pair_two c Hc) as [second ->].
  cbn [length Nat.mul] in Hms. rewrite <- Nat.add_assoc in Hms.
  destruct (shots_loop_unpacked (Shapes.head_char c) kitsu_shots 0 _ ms done fe Hms)
    as (ms1 & -> & Hms1).
  destruct (IH k ms1 _ fe Hms1) as (ms' & -> & Hms').
  exists ms'. split; [done|].
  rewrite fmap_cons, mjoin_cons. unfold Shapes.channel_entries at 1.
  by rewrite <- app_assoc in Hms'.
Qed.

Lemma filled_full (ms : mapping_state) (done : list entry) (fe : Z) :
  Shapes.filled ms done 0 fe ->
  ms = {| editing_versions_mapping := done;
          last_versions := replicate (length done) (Assigned None);
          scene_frame_end := fe;
          version_index := length done |}.
Proof.
  intros (Hmap & Hlast & Hfe & Hidx). destruct ms. cbn in *.
  rewrite app_nil_r in Hmap, Hlast. by subst.
Qed.

Lemma unpacked_queue_length (selected_channels : list string) (n : nat) :
  length (Shapes.unpacked_queue selected_channels n)
  = (length selected_channels * n)%nat.
Proof.
  unfold Shapes.unpacked_queue. rewrite <- (length_reverse selected_channels).
  induction (reverse selected_channels) as [|c rest IH]; [done|].
  rewrite fmap_cons, mjoin_cons, length_app, IH. unfold Shapes.channel_entries.
  by rewrite length_fmap, length_seq.
Qed.

(** The queue for channel names of two characters. *)
Lemma build_mapping_unpacked (selected_channels : list string)
    (kitsu_shots : list kitsu_shot)
    (Hnames : Forall (fun c => String.length c = 2%nat) selected_channels) :
  build_mapping selected_channels kitsu_shots
  = Returned
      {| editing_versions_mapping :=
           Shapes.unpacked_queue selected_channels (length kitsu_shots);
         last_versions :=
           replicate (length selected_channels * length kitsu_shots)
             (Assigned None);
         scene_frame_end := 0;
         version_index := (length selected_channels * length kitsu_shots)%nat |}.
Proof.
  unfold build_mapping.
  match goal with
  | |- channels_loop _ _ ?ms0 = _ =>
      destruct (channels_loop_unpacked kitsu_shots (reverse selected_channels)
                  (proj2 (Forall_reverse _ _) Hnames) 0 ms0 [] 0)
        as (ms' & -> & Hms')
  end.
  { split_and!; cbn [editing_versions_mapping last_versions scene_frame_end
                     version_index app length replicate]; try reflexivity.
    - by rewrite length_reverse, Nat.add_0_r.
    - by rewrite length_reverse, Nat.add_0_r. }
  cbn [app] in Hms'. rewrite (filled_full _ _ _ Hms').
  fold (Shapes.unpacked_queue selected_channels (length kitsu_shots)).
  by rewrite unpacked_queue_length.
Qed.

Lemma channels_loop_app (l1 l2 : list string) (kitsu_shots : list kitsu_shot)
    (ms : mapping_state) :
  channels_loop (l1 ++ l2) kitsu_shots ms
  = match channels_loop l1 kitsu_shots ms with
    | Returned ms' => channels_loop l2 kitsu_shots ms'
    | Raised e => Raised e
    end.
Proof.
  revert ms. induction l1 as [|c l1 IH]; intros ms; [done|].
  cbn [app channels_loop].
  destruct (unpack_pair c) as [[i channel]|e]; [|done].
  destruct (shots_loop (VStr i) 0 kitsu_shots ms) as [ms'|e]; [|done].
  apply IH.
Qed.

Lemma first_other_name (l : list string) :
  Exists (fun c => String.length c <> 2%nat) l ->
  exists good bad rest,
    l = good ++ bad :: rest
    /\ Forall (fun c => String.length c = 2%nat) good
    /\ String.length bad <> 2%nat.
Proof.
  induction l as [|c l IH]; intros Hex; [by apply Exists_nil in Hex|].
  destruct (decide (String.length c = 2%nat)) as [Hc|Hc].
  - apply Exists_cons in Hex as [?|Hex]; [done|].
    destruct (IH Hex) as (good & bad & rest & -> & Hgood & Hbad).
    exists (c :: good), bad, rest. split_and!; [done|by constructor|done].
  - exists [], c, l. split_and!; [done|constructor|done].
Qed.

(** When the mapping loops raise. *)
Lemma build_mapping_raised (selected_channels : list string)
    (kitsu_shots : list kitsu_shot) :
  is_raised (build_mapping selected_channels kitsu_shots) = true
  <-> Exists (fun c => String.length c <> 2%nat) selected_channels.
Proof.
  split.
  - intros Hraised.
    destruct (decide (Forall (fun c => String.length c = 2%nat) selected_channels))
      as [Hall|Hnot].
    + by rewrite (build_mapping_unpacked _ _ Hall) in Hraised.
    + apply not_Forall_Exists in Hnot; [|apply _].
      eapply Exists_impl; [exact Hnot|]. cbn. intros c Hc. exact Hc.
  - intros Hex.
    assert (Hrex : Exists (fun c => String.length c <> 2%nat)
                     (reverse selected_channels)).
    { apply Exists_exists in Hex as (c & Hc & Hlen). apply Exists_exists.
      exists c. split; [by apply elem_of_reverse|done]. }
    destruct (first_other_name _ Hrex) as (good & bad & rest & Hrev & Hgood & Hbad).
    unfold build_mapping. rewrite Hrev, channels_loop_app.
    match goal with
    | |- context [channels_loop good _ ?ms0] =>
        destruct (channels_loop_unpacked kitsu_shots good Hgood
                    (length (bad :: rest) * length kitsu_shots) ms0 [] 0)
          as (ms' & -> & _)
    end.
    { split_and!; cbn [editing_versions_mapping last_versions scene_frame_end
                       version_index app length replicate]; try reflexivity.
      - f_equal. rewrite <- (length_reverse selected_channels), Hrev, length_app.
        cbn [length]. lia.
      - f_equal. rewrite <- (length_reverse selected_channels), Hrev, length_app.
        cbn [length]. lia. }
    cbn [channels_loop].
    by destruct (unpack_pair_other bad Hbad) as [e ->].
Qed.

Lemma unpacked_queue_task_index (selected_channels : list string) (n : nat)
    (e : entry) :
  e ∈ Shapes.unpacked_queue selected_channels n ->
  exists c, task_index e = VStr c.
Proof.
  unfold Shapes.unpacked_queue. intros He.
  apply list_elem_of_join in He as (l & He & Hl).
  apply list_elem_of_fmap in Hl as (c & -> & _).
  unfold Shapes.channel_entries in He.
  apply list_elem_of_fmap in He as (j & -> & _). by eexists.
Qed.

Lemma execute_queue (selected_channels : list string)
    (kitsu_shots : list kitsu_shot) (st st' : session) (queue : list entry) :
  execute selected_channels kitsu_shots st = (Returned queue, st') ->
  queue = Shapes.unpacked_queue selected_channels (length kitsu_shots)
  /\ Forall (fun c => String.length c = 2%nat) selected_channels.
Proof.
  unfold execute. intros Hexec.
  destruct (decide (Forall (fun c => String.length c = 2%nat) selected_channels))
    as [Hall|Hnot].
  - rewrite (build_mapping_unpacked _ _ Hall) in Hexec.
    by injection Hexec as <- _.
  - apply not_Forall_Exists in Hnot; [|apply _].
    assert (Hex : Exists (fun c => String.length c <> 2%nat) selected_channels).
    { eapply Exists_impl; [exact Hnot|]. cbn. intros c Hc. exact Hc. }
    apply build_mapping_raised with (kitsu_shots := kitsu_shots) in Hex.
    destruct (build_mapping selected_channels kitsu_shots); done.
Qed.

(** X12. When every selected channel name has exactly two characters,
    [execute]'s mapping loops return a queue with one entry per channel and
    shot: the channels in reverse selection order, within a channel the shots
    by index, every entry without version and with the first character of
    the channel name in place of the task index; the scene's end frame
    computed alongside is 0, whatever the durations. *)
Theorem build_mapping_two_characters (selected_channels : list string)
    (kitsu_shots : list kitsu_shot)
    (Hnames : Forall (fun c => String.length c = 2%nat) selected_channels) :
  build_mapping selected_channels kitsu_shots
  = Returned
      {| editing_versions_mapping :=
           Shapes.unpacked_queue selected_channels (length kitsu_shots);
         last_versions :=
           replicate (length selected_channels * length kitsu_shots)
             (Assigned None);
         scene_frame_end := 0;
         version_index := (length selected_channels * length kitsu_shots)%nat |}.
Proof. exact (build_mapping_unpacked selected_channels kitsu_shots Hnames). Qed.

(** X13. The mapping loops of [execute] raise exactly when some selected
    channel name does not have exactly two characters, whatever the shots
    are; in particular every one-character or longer channel name makes the
    load operator fail before its timer is registered. *)
Theorem build_mapping_raises_iff (selected_channels : list string)
    (kitsu_shots : list kitsu_shot) :
  is_raised (build_mapping selected_channels kitsu_shots) = true
  <-> Exists (fun c => String.length c <> 2%nat) selected_channels.
Proof. exact (build_mapping_raised selected_channels kitsu_shots). Qed.

(** X14. The state [execute] leaves: the tracks are the selected channels;
    if the sequence editor held strips it is emptied and cursor and
    accumulator are set back to 0; if it held none, cursor and accumulator
    keep the values of the previous run. *)
Theorem execute_resets_only_a_filled_timeline (selected_channels : list string)
    (kitsu_shots : list kitsu_shot) (st : session) :
  let st' := snd (execute selected_channels kitsu_shots st) in
  tracks (data st') = selected_channels
  /\ seq_ed (data st') = []
  /\ annotation_layers (data st') = annotation_layers (data st)
  /\ (seq_ed (data st) <> [] -> counter st' = 0 /\ frame_offset st' = Some 0)
  /\ (seq_ed (data st) = [] ->
        counter st' = counter st /\ frame_offset st' = frame_offset st).
Proof.
  unfold execute.
  destruct (seq_ed (data st)) as [|m ms] eqn:Hseq; cbn [length Z.of_nat Z.ltb];
    destruct (build_mapping selected_channels kitsu_shots);
    cbn; rewrite ?Hseq; done.
Qed.

End QueueMore.

Section QueueAndTimer.
Context `{Externals}.

(** X15. No queue that [execute] returns can be built: whenever the cursor
    points into such a queue, a tick of [build_progressive] raises
    [TypeError], because the task index of every entry is a character and
    not a number; cursor, accumulator and strips are unchanged. *)
Theorem queue_of_execute_cannot_be_built (selected_channels : list string)
    (kitsu_shots : list kitsu_shot) (shot_to_load : string)
    (st st' : session) (queue : list entry)
    (Hexec : execute selected_channels kitsu_shots st = (Returned queue, st'))
    (Hcursor : 0 <= counter st' < Z.of_nat (length queue)) :
  exists st'',
    build_progressive false selected_channels kitsu_shots queue shot_to_load st'
    = (Raised (TypeError "list indices must be integers or slices, not str"), st'')
    /\ counter st'' = counter st'
    /\ frame_offset st'' = frame_offset st'
    /\ seq_ed (data st'') = seq_ed (data st').
Proof.
  destruct (execute_queue _ _ _ _ _ Hexec) as [Hqueue _].
  destruct (lookup_lt_is_Some_2 queue (Z.to_nat (counter st'))) as [e He]; [lia|].
  destruct (unpacked_queue_task_index selected_channels (length kitsu_shots) e)
    as [c Hc].
  { rewrite <- Hqueue. by eapply list_elem_of_lookup_2. }
  unfold build_progressive. cbn [build_rounds]. unfold build_round.
  destruct (Z.leb_spec (Z.of_nat (length queue)) (counter st')); [lia|].
  set (st0 := if counter st' mod 85 =? 0 then _ else st').
  assert (Hst0 : counter st0 = counter st' /\ frame_offset st0 = frame_offset st'
                 /\ seq_ed (data st0) = seq_ed (data st')).
  { subst st0. destruct (counter st' mod 85 =? 0); done. }
  destruct Hst0 as (Hc0 & Hf0 & Hs0). clearbody st0.
  rewrite Hc0, (getitem_lookup queue (counter st') e (proj1 Hcursor) He), Hc.
  cbn [getitem_value]. by exists st0.
Qed.

End QueueAndTimer.

(** ** More on the build timer *)

Section TimerMore.
Context `{Externals}.
Variables (selected_tasks : list string) (kitsu_shots : list kitsu_shot)
          (queue : list entry) (shot_to_load : string).

(** X16. A tick whose current entry carries a version always raises: the
    call of [create_version_sequence] in [build_progressive] cannot succeed,
    and every failure before it is an exception as well. The cursor, the
    accumulator and the version strips of the timeline are as before the
    tick. *)
Theorem tick_on_entry_with_version_raises (st : session) (e : entry)
    (v : kitsu_version)
    (Hcursor : 0 <= counter st)
    (Hentry : queue !! Z.to_nat (counter st) = Some e)
    (Hversion : version e = Some v) :
  exists err st',
    build_progressive false selected_tasks kitsu_shots queue shot_to_load st
    = (Raised err, st')
    /\ counter st' = counter st
    /\ frame_offset st' = frame_offset st
    /\ version_containers (data st') = version_containers (data st).
Proof.
  unfold build_progressive. cbn [build_rounds]. unfold build_round.
  pose proof (lookup_lt_Some _ _ _ Hentry) as Hlt.
  destruct (Z.leb_spec (Z.of_nat (length queue)) (counter st)); [lia|].
  set (st0 := if counter st mod 85 =? 0 then _ else st).
  assert (Hst0 : counter st0 = counter st /\ frame_offset st0 = frame_offset st
                 /\ version_containers (data st0) = version_containers (data st)).
  { subst st0. destruct (counter st mod 85 =? 0); done. }
  destruct Hst0 as (Hc0 & Hf0 & Hv0). clearbody st0.
  rewrite Hc0, (getitem_lookup queue (counter st) e Hcursor Hentry).
  destruct (getitem_value selected_tasks (task_index e)) as [task_name|x];
    [|by exists x, st0].
  destruct (getitem_value kitsu_shots (shot_index e)) as [shot|x];
    [|by exists x, st0].
  rewrite Hversion.
  destruct (build_version_raises task_name shot (task_index e) (shot_index e) v st0)
    as (x & st' & -> & Hc & Hf & Hv).
  exists x, st'. split_and!; [done|congruence..].
Qed.

(** X17. Once the cursor has reached the end of the queue, a tick returns
    [None], which ends the timer, and leaves the cursor, the accumulator,
    the strips and the tracks alone. The playhead goes to the first frame of
    the first strip named like the requested shot; when no shot is requested
    or no strip has that name, the current frame is kept. *)
Theorem tick_on_finished_queue (st : session)
    (Hdone : Z.of_nat (length queue) <= counter st) :
  exists st',
    build_progressive false selected_tasks kitsu_shots queue shot_to_load st
    = (Returned None, st')
    /\ counter st' = counter st
    /\ frame_offset st' = frame_offset st
    /\ seq_ed (data st') = seq_ed (data st)
    /\ tracks (data st') = tracks (data st)
    /\ (forall i m,
          shot_to_load <> "" ->
          seq_ed (data st) !! i = Some m ->
          meta_name m = shot_to_load ->
          (forall j m', seq_ed (data st) !! j = Some m' -> (j < i)%nat ->
                        meta_name m' <> shot_to_load) ->
          frame_current (data st') = frame_final_start m)
    /\ (shot_to_load = ""
        \/ (forall m, m ∈ seq_ed (data st) -> meta_name m <> shot_to_load) ->
        frame_current (data st') = frame_current (data st)).
Proof.
  unfold build_progressive. cbn [build_rounds]. unfold build_round.
  destruct (Z.leb_spec (Z.of_nat (length queue)) (counter st)); [|lia].
  eexists. split; [reflexivity|].
  cbn [counter frame_offset data with_data].
  split; [done|]. split; [done|].
  unfold finalize. cbn [seq_ed log_event].
  destruct (String.eqb_spec shot_to_load "") as [Hempty|Hrequested]; cbn [negb].
  { split; [done|]. split; [done|]. split; [by intros i m Hne|]. done. }
  destruct (list_find (fun m => shot_to_load = meta_name m) (seq_ed (data st)))
    as [[i0 m0]|] eqn:Hfind.
  - apply list_find_Some in Hfind as (Hi0 & Hname0 & Hfirst).
    split; [done|]. split; [done|]. split.
    + intros i m _ Hi Hname Hbefore.
      destruct (Nat.lt_trichotomy i i0) as [Hlt|[->|Hgt]].
      * by destruct (Hfirst i m Hi Hlt).
      * rewrite Hi0 in Hi. by injection Hi as <-.
      * by destruct (Hbefore i0 m0 Hi0 Hgt).
    + intros [?|Hnone]; [done|].
      destruct (Hnone m0); [by eapply list_elem_of_lookup_2|done].
  - split; [done|]. split; [done|]. split; [|done].
    intros i m _ Hi Hname _.
    apply list_find_None in Hfind. rewrite Forall_forall in Hfind.
    destruct (Hfind m); [by eapply list_elem_of_lookup_2|done].
Qed.

(** X18. Ticks that fall into playback do not change what the timer does:
    running it over any sequence of playback flags gives the same result and
    the same state as running it over the ticks without playback alone. *)
Theorem playback_ticks_are_skipped (playing : list bool) (st : session) :
  run_timer playing selected_tasks kitsu_shots queue shot_to_load st
  = run_timer (filter (fun p => p = false) playing) selected_tasks kitsu_shots
      queue shot_to_load st.
Proof.
  revert st. induction playing as [|[|] rest IH]; intros st; [done|..].
  - rewrite filter_cons_False by done. cbn [run_timer build_progressive].
    apply IH.
  - rewrite filter_cons_True by done. cbn [run_timer].
    destruct (build_progressive false _ _ _ _ st) as [[[d|]|e] st']; [|done..].
    apply IH.
Qed.

Lemma run_timer_app (l1 l2 : list bool) (st : session) :
  run_timer (l1 ++ l2) selected_tasks kitsu_shots queue shot_to_load st
  = match run_timer l1 selected_tasks kitsu_shots queue shot_to_load st with
    | (Pending, st') =>
        run_timer l2 selected_tasks kitsu_shots queue shot_to_load st'
    | r => r
    end.
Proof.
  revert st. induction l1 as [|p l1 IH]; intros st; [done|].
  cbn [app run_timer].
  destruct (build_progressive p _ _ _ _ st) as [[[d|]|e] st']; [|done..].
  apply IH.
Qed.

Lemma run_timer_plain_pending (k : nat) (st : session) :
  0 <= counter st ->
  counter st + 5 * Z.of_nat k <= Z.of_nat (length queue) ->
  forallb (plain_entry selected_tasks kitsu_shots) queue = true ->
  is_Some (frame_offset st) ->
  exists st',
    run_timer (replicate k false) selected_tasks kitsu_shots queue shot_to_load st
    = (Pending, st')
    /\ counter st' = counter st + 5 * Z.of_nat k
    /\ is_Some (frame_offset st').
Proof.
  revert st. induction k as [|k IH]; intros st Hpos Hlen Hplain Hoff.
  { exists st. split; [done|]. split; [lia|done]. }
  cbn [replicate run_timer]. unfold build_progressive.
  destruct (build_rounds_plain selected_tasks kitsu_shots queue shot_to_load 5 st)
    as (st1 & -> & Hc1 & Hf1); [lia|lia|done|done|].
  destruct (IH st1) as (st' & -> & Hc' & Hf'); [lia|lia|done|done|].
  exists st'. split; [done|]. split; [lia|done].
Qed.

(** X19. A queue of [n] entries without versions (indices in range, shot
    durations set) is worked off from cursor 0 in exactly [n / 5 + 1] ticks
    without playback: after any [k <= n / 5] ticks the timer is still pending
    with the cursor at [5 k], and tick number [n / 5 + 1] ends it with the
    cursor at [n]. *)
Theorem drain_takes_quotient_plus_one_ticks (st : session)
    (Hcursor : counter st = 0)
    (Hoffset : is_Some (frame_offset st))
    (Hplain : forallb (plain_entry selected_tasks kitsu_shots) queue = true) :
  (forall k, (k <= length queue / 5)%nat ->
     exists st',
       run_timer (replicate k false) selected_tasks kitsu_shots queue
         shot_to_load st = (Pending, st')
       /\ counter st' = 5 * Z.of_nat k)
  /\ exists st',
       run_timer (replicate (length queue / 5 + 1) false) selected_tasks
         kitsu_shots queue shot_to_load st = (Done, st')
       /\ counter st' = Z.of_nat (length queue).
Proof.
  pose proof (Nat.div_mod_eq (length queue) 5) as Hdiv.
  pose proof (Nat.mod_upper_bound (length queue) 5 ltac:(lia)) as Hmod.
  split.
  - intros k Hk.
    destruct (run_timer_plain_pending k st) as (st' & Hrun & Hc & _);
      [lia|nia|done|done|].
    exists st'. split; [done|lia].
  - destruct (run_timer_plain_pending (length queue / 5) st)
      as (st1 & Hrun & Hc1 & Hf1); [lia|lia|done|done|].
    rewrite replicate_add, run_timer_app, Hrun.
    cbn [replicate run_timer]. unfold build_progressive.
    destruct (build_rounds_done selected_tasks kitsu_shots queue shot_to_load
                (length queue mod 5) 5 st1) as (st' & -> & Hc');
      [lia|lia|lia|done|done|].
    by exists st'.
Qed.

End TimerMore.

(** ** The frame-offset accumulator on the entries of one channel *)


Lemma total_duration_cons (shot : kitsu_shot) (shots : list kitsu_shot) :
  Shapes.total_duration (shot :: shots)
  = default 0 (shot_duration shot) + Shapes.total_duration shots.
Proof. reflexivity. Qed.

Lemma total_duration_snoc (shots : list kitsu_shot) (k : nat)
    (shot : kitsu_shot) (d : Z) :
  shots !! k = Some shot ->
  shot_duration shot = Some d ->
  Shapes.total_duration (take (S k) shots)
  = Shapes.total_duration (take k shots) + d.
Proof.
  revert k. induction shots as [|s rest IH]; intros k Hk Hd; [done|].
  destruct k as [|k].
  - injection Hk as ->.
    change (take 1 (shot :: rest)) with (shot :: take 0 rest).
    rewrite total_duration_cons, Hd, !take_0. cbn. lia.
  - cbn in Hk.
    change (take (S (S k)) (s :: rest)) with (s :: take (S k) rest).
    change (take (S k) (s :: rest)) with (s :: take k rest).
    rewrite !total_duration_cons, (IH k Hk Hd). lia.
Qed.

Lemma channel_queue_length (task : Z) (shots : list kitsu_shot) :
  length (Shapes.channel_queue task shots) = length shots.
Proof.
  unfold Shapes.channel_queue, Shapes.channel_entries.
  by rewrite length_fmap, length_seq.
Qed.

Section Accumulator.
Context `{Externals}.
Variables (selected_tasks : list string) (kitsu_shots : list kitsu_shot)
          (task : Z) (shot_to_load : string).
Hypothesis Htask : 0 <= task < Z.of_nat (length selected_tasks).
Hypothesis Hdurations :
  forallb (fun shot => bool_decide (is_Some (shot_duration shot))) kitsu_shots
  = true.

Lemma build_round_in_step (st : session) :
  Shapes.in_step kitsu_shots st ->
  Shapes.in_step kitsu_shots (snd (build_round selected_tasks kitsu_shots (Shapes.channel_queue task kitsu_shots) shot_to_load st)).
Proof.
  intros (Hrange & Hzero & Hsum). unfold build_round.
  rewrite channel_queue_length.
  destruct (Z.leb_spec (Z.of_nat (length kitsu_shots)) (counter st)).
  { cbn [snd]. unfold Shapes.in_step, with_data. cbn [counter frame_offset].
    split_and!; [lia|lia|done|done]. }
  set (st0 := if counter st mod 85 =? 0 then _ else st).
  assert (Hst0 : counter st0 = counter st /\ frame_offset st0 = frame_offset st).
  { subst st0. destruct (counter st mod 85 =? 0); done. }
  destruct Hst0 as [Hc0 Hf0]. clearbody st0.
  assert (Hentry : (Shapes.channel_queue task kitsu_shots) !! Z.to_nat (counter st)
                   = Some {| task_index := VInt task;
                             shot_index := VInt (counter st);
                             version := None |}).
  { unfold Shapes.channel_queue, Shapes.channel_entries. rewrite list_lookup_fmap.
    rewrite lookup_seq_lt by lia. cbn. do 3 f_equal. lia. }
  rewrite Hc0, (getitem_lookup (Shapes.channel_queue task kitsu_shots) (counter st) _ (proj1 Hrange) Hentry).
  cbn [task_index shot_index version getitem_value].
  destruct (getitem_in_range selected_tasks task Htask) as [task_name ->].
  destruct (lookup_lt_is_Some_2 kitsu_shots (Z.to_nat (counter st)))
    as [shot Hshot]; [lia|].
  rewrite (getitem_lookup kitsu_shots (counter st) shot (proj1 Hrange) Hshot).
  assert (Hd : is_Some (shot_duration shot)).
  { rewrite forallb_forall in Hdurations.
    eapply bool_decide_eq_true, Hdurations, list_elem_of_In, list_elem_of_lookup_2.
    exact Hshot. }
  destruct Hd as [d Hd].
  pose proof (total_duration_snoc kitsu_shots (Z.to_nat (counter st)) shot d Hshot Hd) as Hsnoc.
  unfold advance_offset. cbn [value_is_zero]. rewrite Hf0, Hd.
  destruct (Z.eqb_spec (counter st) 0) as [Hz|Hnz].
  - cbn [snd counter frame_offset]. unfold Shapes.in_step.
    cbn [counter frame_offset]. split_and!; [lia|lia|lia|].
    intros _. rewrite Hc0, Hz in *.
    change (Z.to_nat (0 + 1)) with (S (Z.to_nat 0)).
    rewrite Hsnoc. change (Z.to_nat 0) with 0%nat. rewrite take_0.
    done.
  - rewrite Hsum by lia. cbn [snd]. unfold Shapes.in_step.
    cbn [counter frame_offset]. split_and!; [lia|lia|lia|].
    intros _. rewrite Hc0. f_equal.
    replace (Z.to_nat (counter st + 1)) with (S (Z.to_nat (counter st))) by lia.
    by rewrite Hsnoc.
Qed.

Lemma build_rounds_in_step (n : nat) (st : session) :
  Shapes.in_step kitsu_shots st ->
  Shapes.in_step kitsu_shots (snd (build_rounds n selected_tasks kitsu_shots (Shapes.channel_queue task kitsu_shots) shot_to_load st)).
Proof.
  revert st. induction n as [|n IH]; intros st Hst; [done|].
  cbn [build_rounds].
  pose proof (build_round_in_step st Hst) as Hround.
  destruct (build_round _ _ _ _ st) as [[|v|e] st1]; cbn [snd] in *;
    [by apply IH|done..].
Qed.

(** X20. On the queue of one channel over shots whose durations are all set,
    started at cursor 0, the accumulator follows the cursor through any
    sequence of ticks: whenever the cursor stands at [k >= 1], [frame_offset]
    is the sum of the durations of the first [k] shots, that is the frame at
    which shot [k] is to start. *)
Theorem frame_offset_is_prefix_sum (playing : list bool) (st : session)
    (Hcursor : counter st = 0)
    (Hoffset : is_Some (frame_offset st)) :
  let st' := snd (run_timer playing selected_tasks kitsu_shots (Shapes.channel_queue task kitsu_shots)
                    shot_to_load st) in
  0 <= counter st' <= Z.of_nat (length kitsu_shots)
  /\ (1 <= counter st' ->
      frame_offset st'
      = Some (Shapes.total_duration (take (Z.to_nat (counter st')) kitsu_shots))).
Proof.
  assert (Hstep : Shapes.in_step kitsu_shots st) by (split_and!; [lia|lia|done|lia]).
  clear Hcursor Hoffset. cbn zeta.
  enough (Hinv : Shapes.in_step kitsu_shots (snd (run_timer playing selected_tasks kitsu_shots (Shapes.channel_queue task kitsu_shots)
                                 shot_to_load st)))
    by (destruct Hinv as (? & _ & ?); done).
  revert st Hstep. induction playing as [|p rest IH]; intros st Hstep; [done|].
  cbn [run_timer].
  assert (Htick : Shapes.in_step kitsu_shots (snd (build_progressive p selected_tasks kitsu_shots
                                  (Shapes.channel_queue task kitsu_shots) shot_to_load st))).
  { unfold build_progressive. destruct p; [done|]. by apply build_rounds_in_step. }
  destruct (build_progressive p _ _ _ _ st) as [[[d|]|e] st1]; cbn [snd] in *;
    [by apply IH|done..].
Qed.

End Accumulator.

(** ** Shots to load and selected channels *)

Section UtilsMore.
Import Utils.

Lemma slice_within {A} (l : list A) (a b : Z) :
  0 <= a -> 0 <= b <= Z.of_nat (length l) ->
  a <= Z.of_nat (length l) ->
  slice l a b = take (Z.to_nat (b - a)) (drop (Z.to_nat a) l).
Proof.
  intros Ha Hb Hal. unfold slice, slice_bound.
  destruct (Z.ltb_spec a 0); [lia|]. destruct (Z.ltb_spec b 0); [lia|].
  by rewrite !Z.min_l by lia.
Qed.

Lemma find_found (items : list AvailableItem) (key : string) (i : nat)
    (it : AvailableItem) :
  items !! i = Some it -> item_name it = key ->
  (forall j it', items !! j = Some it' -> (j < i)%nat -> item_name it' <> key) ->
  find items key = Z.of_nat i.
Proof.
  intros Hi Hname Hfirst. unfold find.
  destruct (list_find _ items) as [[i0 it0]|] eqn:Hfind.
  - apply list_find_Some in Hfind as (Hi0 & Hname0 & Hfirst0).
    destruct (Nat.lt_trichotomy i i0) as [Hlt|[->|Hgt]]; [|done|].
    + by destruct (Hfirst0 i it Hi Hlt).
    + by destruct (Hfirst i0 it0 Hi0 Hgt).
  - apply list_find_None in Hfind. rewrite Forall_forall in Hfind.
    destruct (Hfind it); [by eapply list_elem_of_lookup_2|done].
Qed.

Lemma find_missing (items : list AvailableItem) (key : string) :
  (forall it, it ∈ items -> item_name it <> key) -> find items key = -1.
Proof.
  intros Hnone. unfold find.
  destruct (list_find _ items) as [[i0 it0]|] eqn:Hfind; [|done].
  apply list_find_Some in Hfind as (Hi0 & Hname0 & _).
  destruct (Hnone it0); [by eapply list_elem_of_lookup_2|done].
Qed.

Lemma requested_shot (shot_to_load : string) :
  shot_to_load <> "" -> shot_to_load <> "All" ->
  negb (String.eqb shot_to_load "") && negb (String.eqb shot_to_load "All")
  = true.
Proof.
  intros H1 H2.
  destruct (String.eqb_spec shot_to_load ""); [done|].
  by destruct (String.eqb_spec shot_to_load "All").
Qed.

(** X21. When a shot is requested and the first shot with that name stands
    at index [i], [get_shots_list] returns the names of the shots at the
    indices from [i - context_shots] to [i + context_shots] that exist and
    are not named "All", in order: the requested shot is among them, and
    there are at most [2 * context_shots + 1] of them. *)
Theorem get_shots_list_window (available_shots : list AvailableItem)
    (shot_to_load : string) (context_shots : Z) (i : nat) (it : AvailableItem)
    (Hrequested : shot_to_load <> "" /\ shot_to_load <> "All")
    (Hcontext : 0 <= context_shots)
    (Hat : available_shots !! i = Some it)
    (Hname : item_name it = shot_to_load)
    (Hfirst : forall j it', available_shots !! j = Some it' -> (j < i)%nat ->
                            item_name it' <> shot_to_load) :
  (forall name,
      name ∈ get_shots_list available_shots shot_to_load context_shots
      <-> exists j shot,
            available_shots !! j = Some shot
            /\ item_name shot = name
            /\ name <> "All"
            /\ Z.of_nat i - context_shots <= Z.of_nat j
               <= Z.of_nat i + context_shots)
  /\ shot_to_load ∈ get_shots_list available_shots shot_to_load context_shots
  /\ Z.of_nat (length (get_shots_list available_shots shot_to_load context_shots))
     <= 2 * context_shots + 1.
Proof.
  destruct Hrequested as [Hne HnAll].
  pose proof (lookup_lt_Some _ _ _ Hat) as Hlt.
  assert (Hlist :
    get_shots_list available_shots shot_to_load context_shots
    = item_name
        <$> filter (fun shot => item_name shot <> "All")
              (take (Z.to_nat
                       (Z.min (Z.of_nat (length available_shots))
                              (Z.of_nat i + context_shots + 1)
                        - Z.max 0 (Z.of_nat i - context_shots)))
                    (drop (Z.to_nat (Z.max 0 (Z.of_nat i - context_shots)))
                          available_shots))).
  { unfold get_shots_list. rewrite (requested_shot _ Hne HnAll).
    rewrite (find_found _ _ _ _ Hat Hname Hfirst).
    by rewrite slice_within by lia. }
  assert (Hmem : forall name,
    name ∈ get_shots_list available_shots shot_to_load context_shots
    <-> exists j shot,
          available_shots !! j = Some shot
          /\ item_name shot = name
          /\ name <> "All"
          /\ Z.of_nat i - context_shots <= Z.of_nat j
             <= Z.of_nat i + context_shots).
  { intros name. rewrite Hlist, list_elem_of_fmap. split.
    - intros (shot & -> & Hshot).
      apply list_elem_of_filter in Hshot as [HnotAll Hshot].
      apply list_elem_of_lookup in Hshot as [k Hk].
      apply lookup_take_Some in Hk as [Hk Hklt].
      rewrite lookup_drop in Hk.
      pose proof (lookup_lt_Some _ _ _ Hk) as Hbound.
      eexists _, shot. split_and!; [exact Hk|done|done|lia|lia].
    - intros (j & shot & Hj & <- & HnotAll & Hrange).
      pose proof (lookup_lt_Some _ _ _ Hj) as Hbound.
      exists shot. split; [done|]. apply list_elem_of_filter. split; [done|].
      apply list_elem_of_lookup.
      exists (j - Z.to_nat (Z.max 0 (Z.of_nat i - context_shots)))%nat.
      apply lookup_take_Some. split; [|lia].
      rewrite lookup_drop. rewrite <- Hj. f_equal. lia. }
  split; [exact Hmem|]. split.
  - apply Hmem. exists i, it. split_and!; [done|done|done|lia|lia].
  - rewrite Hlist, length_fmap.
    etrans; [apply inj_le, length_filter|].
    rewrite length_take. lia.
Qed.

(** X22. When a shot is requested that no available shot is named after,
    [get_shots_list] returns the names, "All" left out, of the first
    [context_shots] available shots, which may be none: the index [-1] that
    [find] gives is used like any other, and the window it gives starts at
    the head of the collection. *)
Theorem get_shots_list_unknown_shot (available_shots : list AvailableItem)
    (shot_to_load : string) (context_shots : Z)
    (Hrequested : shot_to_load <> "" /\ shot_to_load <> "All")
    (Hcontext : 0 <= context_shots)
    (Hunknown : forall it, it ∈ available_shots -> item_name it <> shot_to_load) :
  get_shots_list available_shots shot_to_load context_shots
  = item_name
      <$> filter (fun shot => item_name shot <> "All")
            (take (Z.to_nat context_shots) available_shots).
Proof.
  destruct Hrequested as [Hne HnAll].
  unfold get_shots_list. rewrite (requested_shot _ Hne HnAll).
  rewrite (find_missing _ _ Hunknown).
  rewrite slice_within by lia.
  replace (Z.to_nat (Z.max 0 (-1 - context_shots))) with 0%nat by lia.
  rewrite drop_0.
  destruct (Z.le_gt_cases (Z.of_nat (length available_shots)) context_shots).
  - rewrite !take_ge by lia. done.
  - do 3 f_equal. lia.
Qed.

(** X23. Whatever is requested, the names [get_shots_list] returns are
    names of available shots, in the order of the collection, and "All" is
    never one of them; with no shot requested (empty name or "All") they are
    the names of all available shots but "All". *)
Theorem get_shots_list_names (available_shots : list AvailableItem)
    (shot_to_load : string) (context_shots : Z) :
  get_shots_list available_shots shot_to_load context_shots
    `sublist_of` (item_name <$> available_shots)
  /\ ("All" ∉ get_shots_list available_shots shot_to_load context_shots)
  /\ (shot_to_load = "" \/ shot_to_load = "All" ->
      get_shots_list available_shots shot_to_load context_shots
      = filter (fun name => name <> "All") (item_name <$> available_shots)).
Proof.
  assert (Hfilter : forall l : list AvailableItem,
    item_name <$> filter (fun shot => item_name shot <> "All") l
    = filter (fun name => name <> "All") (item_name <$> l)).
  { induction l as [|x l IH]; [done|]. rewrite fmap_cons.
    destruct (decide (item_name x <> "All")).
    - rewrite !filter_cons_True by done. by rewrite fmap_cons, IH.
    - by rewrite !filter_cons_False by done. }
  split_and!.
  - unfold get_shots_list. apply fmap_sublist.
    etrans; [apply sublist_filter|].
    destruct (_ && _); [|done].
    unfold slice. etrans; [apply sublist_take|apply sublist_drop].
  - unfold get_shots_list. rewrite Hfilter. intros Hin.
    by apply list_elem_of_filter in Hin as [? _].
  - intros Hall. unfold get_shots_list.
    assert (Hcond : negb (String.eqb shot_to_load "")
                    && negb (String.eqb shot_to_load "All") = false)
      by (destruct Hall as [-> | ->]; done).
    rewrite Hcond. apply Hfilter.
Qed.

(** X24. [get_selected_channels_list] returns exactly the names of the
    channels that are selected, in the order of the channel list; after
    [update_toggle_all_tasks] it returns every channel name when the toggle
    is set and none when it is cleared, and the callback keeps names and
    descriptions. *)
Theorem selected_channels_after_toggle (channels_list : list AvailableItem) :
  get_selected_channels_list channels_list `sublist_of` (item_name <$> channels_list)
  /\ (forall name,
        name ∈ get_selected_channels_list channels_list
        <-> exists channel, channel ∈ channels_list
                            /\ item_name channel = name
                            /\ item_selected channel = true)
  /\ get_selected_channels_list (update_toggle_all_tasks true channels_list)
     = item_name <$> channels_list
  /\ get_selected_channels_list (update_toggle_all_tasks false channels_list) = []
  /\ (forall toggle,
        item_name <$> update_toggle_all_tasks toggle channels_list
        = item_name <$> channels_list
        /\ item_description <$> update_toggle_all_tasks toggle channels_list
           = item_description <$> channels_list).
Proof.
  split_and!.
  - unfold get_selected_channels_list. apply fmap_sublist, sublist_filter.
  - intros name. unfold get_selected_channels_list. rewrite list_elem_of_fmap.
    split.
    + intros (channel & -> & Hin). apply list_elem_of_filter in Hin as [Hsel Hin].
      by exists channel.
    + intros (channel & Hin & <- & Hsel). exists channel. split; [done|].
      by apply list_elem_of_filter.
  - unfold get_selected_channels_list, update_toggle_all_tasks.
    induction channels_list as [|c l IH]; [done|].
    rewrite !fmap_cons, filter_cons_True by done. by rewrite fmap_cons, IH.
  - unfold get_selected_channels_list, update_toggle_all_tasks.
    induction channels_list as [|c l IH]; [done|].
    rewrite fmap_cons, filter_cons_False by done. exact IH.
  - intros toggle. unfold update_toggle_all_tasks.
    rewrite <- !list_fmap_compose. split; by apply list_fmap_ext.
Qed.

End UtilsMore.

(** ** The authentication operator *)

Section AuthenticationMore.
Import Authentication.

(** X25. After either of the two flag callbacks, auto log-in is never set
    without save-credentials; [switch_save_credentials] leaves
    [save_credentials] as it found it, [switch_auto_login] leaves
    [auto_login] as it found it, neither touches login or password, the data
    written are the two flags as they stand afterwards and no password, and
    running a callback again on its own result changes nothing. *)
Theorem flag_callbacks_keep_flags_consistent (self : operator) :
  let after_save := fst (switch_save_credentials self) in
  let after_auto := fst (switch_auto_login self) in
  (auto_login after_save = true -> save_credentials after_save = true)
  /\ (auto_login after_auto = true -> save_credentials after_auto = true)
  /\ save_credentials after_save = save_credentials self
  /\ auto_login after_auto = auto_login self
  /\ (login after_save, password after_save) = (login self, password self)
  /\ (login after_auto, password after_auto) = (login self, password self)
  /\ snd (switch_save_credentials self) = flags_data after_save
  /\ snd (switch_auto_login self) = flags_data after_auto
  /\ flags_data after_save !! "password" = None
  /\ fst (switch_save_credentials after_save) = after_save
  /\ fst (switch_auto_login after_auto) = after_auto.
Proof.
  destruct self as [l p [|] [|]]; cbn; split_and!; done.
Qed.

End AuthenticationMore.

(** ** More on the credential codec *)

Section CodecMore.

Ltac by_division := Z.div_mod_to_equations; lia.

Lemma utf8_encode_char_none (c : Z) :
  utf8_encode_char c = None <-> is_scalar c = false.
Proof.
  unfold utf8_encode_char. destruct (is_scalar c); cbn [negb].
  - split; [|done].
    repeat match goal with
           | |- context [if ?t then _ else _] => destruct t
           end; done.
  - done.
Qed.

Lemma utf8_encode_none (p : str) :
  utf8_encode p = None <-> forallb is_scalar p = false.
Proof.
  induction p as [|c rest IH]; [done|].
  cbn [utf8_encode forallb].
  destruct (is_scalar c) eqn:Hc; cbn [andb].
  - destruct (utf8_encode_char c) as [bc|] eqn:Hbc.
    + rewrite <- IH. by destruct (utf8_encode rest).
    + apply utf8_encode_char_none in Hbc. congruence.
  - apply utf8_encode_char_none in Hc. by rewrite Hc.
Qed.

Lemma utf8_encode_bytes (p : str) (b : bytes) :
  utf8_encode p = Some b -> Forall is_byte b.
Proof.
  revert b. induction p as [|c rest IH]; intros b.
  { intros [= <-]. constructor. }
  cbn [utf8_encode].
  destruct (utf8_encode_char c) as [bc|] eqn:Hbc; [|done].
  destruct (utf8_encode rest) as [br|]; [|done].
  intros [= <-]. apply Forall_app. split; [by eapply utf8_encode_char_bytes|].
  by apply IH.
Qed.

Lemma b64encode_alphabet (b : bytes) :
  Forall is_byte b ->
  Forall (fun c => is_Some (b64_value c) \/ c = BASE64_PAD) (b64encode b)
  /\ exists k, length (b64encode b) = (4 * k)%nat.
Proof.
  assert (Hchar : forall i, 0 <= i < 64 ->
            is_Some (b64_value (b64_char i)) \/ b64_char i = BASE64_PAD).
  { intros i Hi. left. rewrite b64_value_char by done. by eexists. }
  induction b as [|x|x y|x y z rest IH] using list_ind3; intros Hb.
  - split; [constructor|by exists 0%nat].
  - apply Forall_cons in Hb as [Hx _]. unfold is_byte in Hx.
    split; [|by exists 1%nat]. cbn [b64encode].
    repeat (apply Forall_cons; split); try (apply Hchar; by_division);
      try (by right); constructor.
  - apply Forall_cons in Hb as [Hx Hb]. apply Forall_cons in Hb as [Hy _].
    unfold is_byte in *. split; [|by exists 1%nat]. cbn [b64encode].
    repeat (apply Forall_cons; split); try (apply Hchar; by_division);
      try (by right); constructor.
  - apply Forall_cons in Hb as [Hx Hb]. apply Forall_cons in Hb as [Hy Hb].
    apply Forall_cons in Hb as [Hz Hb]. unfold is_byte in *.
    destruct (IH Hb) as [Hrest [k Hk]]. split.
    + cbn [b64encode].
      repeat (apply Forall_cons; split); try (apply Hchar; by_division). exact Hrest.
    + exists (S k). cbn [b64encode length]. rewrite Hk. lia.
Qed.

(** Decoding what was encoded, for any password that can be encoded. *)
Lemma decode_encoded_password (password stored : str) :
  encode_password password = Returned stored ->
  decode_password stored = Returned password.
Proof.
  unfold encode_password.
  destruct (utf8_encode password) as [b|] eqn:Hb; [|done].
  assert (Hscalar : forallb is_scalar password = true).
  { destruct (forallb is_scalar password) eqn:Hs; [done|].
    apply utf8_encode_none in Hs. congruence. }
  destruct (utf8_encode_scalar password Hscalar) as (b' & Hb' & Hbytes & Hdec & Hnil).
  rewrite Hb in Hb'. injection Hb' as <-.
  pose proof (b64encode_ascii b Hbytes) as Hascii.
  rewrite (utf8_decode_ascii _ Hascii). intros [= <-].
  pose proof (a2b_b64encode b Hbytes []) as Hloop. cbn [app] in Hloop.
  unfold decode_password.
  destruct (b64encode b) as [|c0 s] eqn:Hs.
  - apply b64encode_nil in Hs. by rewrite (Hnil Hs).
  - unfold b64decode. by rewrite (forallb_ascii _ Hascii), Hloop, Hdec.
Qed.

(** The outcomes of [encode_password]. *)
Lemma encode_password_cases (password : str) :
  (is_raised (encode_password password) = true
   <-> forallb is_scalar password = false)
  /\ (forall e, encode_password password = Raised e -> e = UnicodeEncodeError)
  /\ (forall stored,
        encode_password password = Returned stored ->
        Forall (fun c => is_Some (b64_value c) \/ c = BASE64_PAD) stored
        /\ (exists k, length stored = (4 * k)%nat)
        /\ decode_password stored = Returned password).
Proof.
  assert (Hshape : forall b, utf8_encode password = Some b ->
            encode_password password = Returned (b64encode b)).
  { intros b Hb. unfold encode_password. rewrite Hb.
    by rewrite (utf8_decode_ascii _ (b64encode_ascii b (utf8_encode_bytes _ _ Hb))). }
  split_and!.
  - rewrite <- utf8_encode_none.
    destruct (utf8_encode password) as [b|] eqn:Hb.
    + by rewrite (Hshape b eq_refl).
    + unfold encode_password. by rewrite Hb.
  - intros e. destruct (utf8_encode password) as [b|] eqn:Hb.
    + by rewrite (Hshape b eq_refl).
    + unfold encode_password. rewrite Hb. by intros [= <-].
  - intros stored Hstored. split_and!; [..|by apply decode_encoded_password].
    + destruct (utf8_encode password) as [b|] eqn:Hb.
      * rewrite (Hshape b eq_refl) in Hstored. injection Hstored as <-.
        apply b64encode_alphabet. by eapply utf8_encode_bytes.
      * unfold encode_password in Hstored. by rewrite Hb in Hstored.
    + destruct (utf8_encode password) as [b|] eqn:Hb.
      * rewrite (Hshape b eq_refl) in Hstored. injection Hstored as <-.
        apply b64encode_alphabet. by eapply utf8_encode_bytes.
      * unfold encode_password in Hstored. by rewrite Hb in Hstored.
Qed.

(** X26. [encode_password] raises exactly when the password holds a code
    point that is not a Unicode scalar value, and then it is
    [UnicodeEncodeError]; whenever it returns, the stored string consists of
    characters of the Base64 alphabet and the pad character only, its length
    is a multiple of four, and [decode_password] gives the password back. *)
Theorem encode_password_outcome (password : str) :
  (is_raised (encode_password password) = true
   <-> forallb is_scalar password = false)
  /\ (forall e, encode_password password = Raised e -> e = UnicodeEncodeError)
  /\ (forall stored,
        encode_password password = Returned stored ->
        Forall (fun c => is_Some (b64_value c) \/ c = BASE64_PAD) stored
        /\ (exists k, length stored = (4 * k)%nat)
        /\ decode_password stored = Returned password).
Proof. exact (encode_password_cases password). Qed.

(** X27. Two passwords with the same stored value are the same password:
    [encode_password] loses nothing. *)
Theorem encode_password_injective (password1 password2 stored : str)
    (Hfirst : encode_password password1 = Returned stored)
    (Hsecond : encode_password password2 = Returned stored) :
  password1 = password2.
Proof.
  apply decode_encoded_password in Hfirst, Hsecond. congruence.
Qed.

(** X28. A stored value with a character outside ASCII makes
    [decode_password] raise [ValueError]: nothing is decoded. *)
Theorem decode_password_not_ascii (stored : str) (c : Z)
    (Hin : c ∈ stored) (Hc : c < 0 \/ 128 <= c) :
  decode_password stored
  = Raised (ValueError "string argument should contain only ASCII characters").
Proof.
  unfold decode_password. destruct stored as [|c0 rest]; [by apply elem_of_nil in Hin|].
  unfold b64decode.
  assert (Hall : forallb (fun c => (0 <=? c) && (c <? 128)) (c0 :: rest) = false).
  { destruct (forallb _ (c0 :: rest)) eqn:Hf; [|done].
    rewrite forallb_forall in Hf. apply list_elem_of_In, Hf in Hin.
    apply andb_prop in Hin as [H0 H1]. apply Z.leb_le in H0. apply Z.ltb_lt in H1.
    lia. }
  by rewrite Hall.
Qed.

End CodecMore.

Section AuthenticationExecute.
Import Authentication.
Variable authenticate : str -> str -> bool.

(** X29. When authentication succeeds, [execute] stores the encoded
    password together with the two flags, whether or not save-credentials is
    set, and [decode_password] of the stored value is the password; the
    session is marked logged in and the author name is the login. *)
Theorem execute_stores_password (self : operator)
    (Hauth : authenticate (login self) (password self) = true)
    (Hscalar : forallb is_scalar (password self) = true) :
  exists r data stored,
    execute authenticate self = Returned r
    /\ written r = Some data
    /\ data !! "password" = Some (CStr stored)
    /\ decode_password stored = Returned (password self)
    /\ data !! "auto_login" = Some (CBool (auto_login self))
    /\ data !! "save_credentials" = Some (CBool (save_credentials self))
    /\ session_logged_in r = true
    /\ author_name r = login self
    /\ exec_operator r = self.
Proof.
  unfold execute. rewrite Hauth.
  destruct (encode_password (password self)) as [stored|e] eqn:Henc.
  - eexists _, _, stored. split; [reflexivity|]. cbn.
    split_and!; try done. by apply decode_encoded_password.
  - destruct (proj1 (encode_password_cases (password self))) as [Hr _].
    rewrite Henc in Hr. specialize (Hr eq_refl). congruence.
Qed.

(** X30. [execute] raises exactly when authentication succeeded for a
    password that cannot be encoded; when authentication fails it returns
    normally, writes nothing to the configuration, clears the password,
    keeps login and flags, and marks the session logged out. *)
Theorem execute_failure (self : operator) :
  (is_raised (execute authenticate self) = true
   <-> authenticate (login self) (password self) = true
       /\ forallb is_scalar (password self) = false)
  /\ (authenticate (login self) (password self) = false ->
      exists r,
        execute authenticate self = Returned r
        /\ written r = None
        /\ session_logged_in r = false
        /\ password (exec_operator r) = []
        /\ login (exec_operator r) = login self
        /\ save_credentials (exec_operator r) = save_credentials self
        /\ auto_login (exec_operator r) = auto_login self
        /\ reported r = ("ERROR", "Authentication failed")).
Proof.
  unfold execute.
  destruct (authenticate (login self) (password self)).
  - split; [|done].
    rewrite <- (proj1 (encode_password_cases (password self))).
    destruct (encode_password (password self)); cbn; split; try done.
    + by intros [_ ?].
  - split; [split; [done|by intros [? _]]|].
    intros _. eexists. split; [reflexivity|]. done.
Qed.

End AuthenticationExecute.

(** ** The theorems above at concrete inputs *)

Lemma build_orio_status_raises_iff_witness :
  is_raised (build_orio_status ∅ (Some "validated")) = true.
Proof.
  apply (proj2 (proj1 (build_orio_status_raises_iff ∅ (Some "validated")))).
  left. reflexivity.
Defined.

Lemma create_version_sequence_returns_witness :
  exists after,
    create_version_sequence (H := Samples.externals) tt Samples.empty_stack
      Samples.v001 None false = (Returned (Some 0%nat), after)
    /\ 0%nat = length (sequences Samples.empty_stack).
Proof.
  eexists. split; [reflexivity|].
  exact (proj1 (create_version_sequence_returns (H := Samples.externals) tt
                  Samples.empty_stack _ Samples.v001 None false (Some 0%nat)
                  eq_refl)).
Defined.

Lemma create_version_sequence_keeps_names_distinct_witness :
  NoDup (seq_name <$> sequences
           (snd (create_version_sequence (H := Samples.externals) tt
                   Samples.stack_with_v001 Samples.v002 None false))).
Proof.
  apply (create_version_sequence_keeps_names_distinct (H := Samples.externals)).
  cbn. apply NoDup_singleton.
Defined.

Lemma create_version_sequence_raises_late_witness :
  exists e after,
    create_version_sequence (H := MoreSamples.externals_without_statuses) tt
      Samples.empty_stack Samples.v001 None false = (Raised e, after)
    /\ build_orio_status ∅ (status Samples.v001) = Raised e.
Proof.
  do 2 eexists. split; [reflexivity|].
  exact (proj1 (create_version_sequence_raises_late
                  (H := MoreSamples.externals_without_statuses) tt
                  Samples.empty_stack _ Samples.v001 None false _ eq_refl)).
Defined.

Lemma review_and_strip_status_witness :
  exists s r,
    edit_review Samples.statuses Samples.v001 = Returned (Some r)
    /\ current_status s = state <$> review_status r.
Proof.
  do 2 eexists. split; [reflexivity|].
  exact (review_and_strip_status (H := Samples.externals) tt Samples.empty_stack
           _ Samples.v001 None false 0%nat _ _ eq_refl eq_refl eq_refl).
Defined.

Lemma build_reviews_returns_no_review_witness :
  fst (build_reviews (FS := Samples.directories) Samples.statuses [None; None]
         [Samples.orphan_note] Samples.cache_dir [])
  = Returned [None; None]
  /\ Forall (fun v : option kitsu_version => v = None) [None; None].
Proof.
  split; [reflexivity|].
  exact (proj1 (proj2
           (build_reviews_returns_no_review (FS := Samples.directories)
              Samples.statuses [None; None] [Samples.orphan_note]
              Samples.cache_dir [] _ _ eq_refl))).
Defined.

Lemma build_reviews_raises_iff_witness :
  fst (build_reviews (FS := Samples.directories) Samples.statuses
         [None; Some Samples.v001] [] Samples.cache_dir [])
  = Raised (NameError "Process")
  /\ fst (build_reviews (FS := Samples.directories) Samples.statuses
            [None; Some Samples.v001] [Samples.orphan_note] Samples.cache_dir [])
     = Raised (NameError "attach_to_dl")
  /\ is_raised (fst (build_reviews (FS := Samples.read_only) Samples.statuses
                       [] [] Samples.cache_dir [])) = true.
Proof.
  split_and!.
  - exact (proj2 (build_reviews_raises_iff (FS := Samples.directories)
                    Samples.statuses [None; Some Samples.v001] []
                    Samples.cache_dir [])
             1%nat Samples.v001 [] eq_refl eq_refl).
  - exact (proj2 (build_reviews_raises_iff (FS := Samples.directories)
                    Samples.statuses [None; Some Samples.v001]
                    [Samples.orphan_note] Samples.cache_dir [])
             1%nat Samples.v001 [] eq_refl eq_refl).
  - apply (proj2 (proj1 (build_reviews_raises_iff (FS := Samples.read_only)
                           Samples.statuses [] [] Samples.cache_dir []))).
    left. reflexivity.
Defined.

Lemma build_mapping_two_characters_witness :
  build_mapping ["fx"; "an"] Samples.three_shots
  = Returned
      {| editing_versions_mapping := Shapes.unpacked_queue ["fx"; "an"] 3;
         last_versions := replicate 6 (Assigned None);
         scene_frame_end := 0;
         version_index := 6%nat |}.
Proof.
  apply (build_mapping_two_characters ["fx"; "an"] Samples.three_shots).
  repeat constructor.
Defined.

Lemma build_mapping_raises_iff_witness :
  is_raised (build_mapping ["anim"; "fx"] Samples.three_shots) = true.
Proof.
  apply (proj2 (build_mapping_raises_iff ["anim"; "fx"] Samples.three_shots)).
  apply Exists_cons_hd. cbn. lia.
Defined.

Lemma execute_resets_only_a_filled_timeline_witness :
  counter (snd (execute ["fx"] Samples.three_shots
                  {| counter := 3; frame_offset := Some 84;
                     data := Samples.empty_scene |})) = 3
  /\ frame_offset (snd (execute ["fx"] Samples.three_shots
                          {| counter := 3; frame_offset := Some 84;
                             data := Samples.empty_scene |})) = Some 84.
Proof.
  apply (execute_resets_only_a_filled_timeline ["fx"] Samples.three_shots
           {| counter := 3; frame_offset := Some 84; data := Samples.empty_scene |}).
  reflexivity.
Defined.

Lemma queue_of_execute_cannot_be_built_witness :
  exists st'',
    build_progressive (H := Samples.externals) false ["fx"; "an"]
      Samples.three_shots MoreSamples.loaded_queue "" MoreSamples.loaded_state
    = (Raised (TypeError "list indices must be integers or slices, not str"), st'').
Proof.
  assert (Hexec :
    execute ["fx"; "an"] Samples.three_shots (initial_state Samples.empty_scene)
    = (Returned MoreSamples.loaded_queue, MoreSamples.loaded_state))
    by (vm_compute; reflexivity).
  assert (Hcursor :
    0 <= counter MoreSamples.loaded_state
      < Z.of_nat (length MoreSamples.loaded_queue))
    by (vm_compute; split; [discriminate|reflexivity]).
  destruct (queue_of_execute_cannot_be_built (H := Samples.externals) ["fx"; "an"]
              Samples.three_shots "" (initial_state Samples.empty_scene)
              MoreSamples.loaded_state MoreSamples.loaded_queue Hexec Hcursor)
    as (st'' & Htick & _).
  exists st''. exact Htick.
Defined.

Lemma tick_on_entry_with_version_raises_witness :
  exists err st',
    build_progressive (H := Samples.externals) false ["anim"] Samples.three_shots
      Samples.three_shots_queue "" (initial_state Samples.empty_scene)
    = (Raised err, st')
    /\ counter st' = 0.
Proof.
  destruct (tick_on_entry_with_version_raises (H := Samples.externals) ["anim"]
              Samples.three_shots Samples.three_shots_queue ""
              (initial_state Samples.empty_scene) _ Samples.v001
              ltac:(cbn; lia) eq_refl eq_refl)
    as (err & st' & Htick & Hcounter & _).
  exists err, st'. split; [exact Htick|exact Hcounter].
Defined.

Lemma tick_on_finished_queue_witness :
  exists st',
    build_progressive (H := Samples.externals) false ["anim"] Samples.three_shots
      [] "" (initial_state Samples.empty_scene)
    = (Returned None, st')
    /\ counter st' = 0.
Proof.
  destruct (tick_on_finished_queue (H := Samples.externals) ["anim"]
              Samples.three_shots [] "" (initial_state Samples.empty_scene)
              ltac:(cbn; lia))
    as (st' & Htick & Hcounter & _).
  exists st'. split; [exact Htick|exact Hcounter].
Defined.

Lemma drain_takes_quotient_plus_one_ticks_witness :
  exists st',
    run_timer (H := Samples.externals) (replicate 3 false) ["anim"]
      Samples.three_shots Samples.thirteen_queue ""
      (initial_state Samples.empty_scene)
    = (Done, st')
    /\ counter st' = 13.
Proof.
  exact (proj2 (drain_takes_quotient_plus_one_ticks (H := Samples.externals)
                  ["anim"] Samples.three_shots Samples.thirteen_queue ""
                  (initial_state Samples.empty_scene) eq_refl
                  (ex_intro _ 0 eq_refl) eq_refl)).
Defined.

Lemma frame_offset_is_prefix_sum_witness :
  0 <= counter (snd (run_timer (H := Samples.externals) [false] ["anim"]
                       Samples.three_shots
                       (Shapes.channel_queue 0 Samples.three_shots) ""
                       (initial_state Samples.empty_scene)))
    <= Z.of_nat (length Samples.three_shots).
Proof.
  exact (proj1 (frame_offset_is_prefix_sum (H := Samples.externals) ["anim"]
                  Samples.three_shots 0 "" ltac:(cbn; lia) eq_refl [false]
                  (initial_state Samples.empty_scene) eq_refl
                  (ex_intro _ 0 eq_refl))).
Defined.

Lemma get_shots_list_window_witness :
  "SH030" ∈ Utils.get_shots_list MoreSamples.available_shots "SH030" 1.
Proof.
  refine (proj1 (proj2 (get_shots_list_window MoreSamples.available_shots
                          "SH030" 1 3 (MoreSamples.shot_item "SH030")
                          _ _ eq_refl eq_refl _))).
  - split; discriminate.
  - lia.
  - intros [|[|[|j]]] it' Hj Hlt; [..|lia]; injection Hj as <-; discriminate.
Defined.

Lemma get_shots_list_unknown_shot_witness :
  Utils.get_shots_list MoreSamples.available_shots "SH999" 2
  = Utils.item_name
      <$> filter (fun shot => Utils.item_name shot <> "All")
            (take 2 MoreSamples.available_shots).
Proof.
  refine (get_shots_list_unknown_shot MoreSamples.available_shots "SH999" 2 _ _ _).
  - split; discriminate.
  - lia.
  - intros it Hin. unfold MoreSamples.available_shots in Hin.
    apply list_elem_of_fmap in Hin as (name & -> & Hname). cbn.
    repeat (apply elem_of_cons in Hname as [->|Hname]; [discriminate|]).
    by apply elem_of_nil in Hname.
Defined.

Lemma get_shots_list_names_witness :
  Utils.get_shots_list MoreSamples.available_shots "All" 1
  = filter (fun name => name <> "All")
      (Utils.item_name <$> MoreSamples.available_shots).
Proof.
  apply (get_shots_list_names MoreSamples.available_shots "All" 1).
  right. reflexivity.
Defined.

Lemma selected_channels_after_toggle_witness :
  "SH010" ∈ Utils.get_selected_channels_list MoreSamples.available_shots.
Proof.
  apply (proj1 (proj2 (selected_channels_after_toggle MoreSamples.available_shots))).
  exists (MoreSamples.shot_item "SH010"). split; [|done].
  unfold MoreSamples.available_shots.
  apply list_elem_of_fmap. exists "SH010". split; [done|].
  apply elem_of_cons. right. apply elem_of_cons. by left.
Defined.

Lemma flag_callbacks_keep_flags_consistent_witness :
  Authentication.save_credentials
    (fst (Authentication.switch_auto_login MoreSamples.operator_auto)) = true.
Proof.
  exact (proj1 (proj2 (flag_callbacks_keep_flags_consistent
                         MoreSamples.operator_auto)) eq_refl).
Defined.

Lemma encode_password_outcome_witness :
  is_raised (encode_password [97; 55296]) = true.
Proof.
  apply (proj1 (encode_password_outcome [97; 55296])). reflexivity.
Defined.

Lemma encode_password_injective_witness : [97; 233] = [97; 233].
Proof.
  exact (encode_password_injective [97; 233] [97; 233] _ eq_refl eq_refl).
Defined.

Lemma decode_password_not_ascii_witness :
  decode_password [89; 233; 61; 61]
  = Raised (ValueError "string argument should contain only ASCII characters").
Proof.
  apply (decode_password_not_ascii [89; 233; 61; 61] 233).
  - apply elem_of_cons. right. apply elem_of_cons. by left.
  - right. lia.
Defined.

Lemma execute_stores_password_witness :
  exists r data stored,
    Authentication.execute (fun _ _ => true) MoreSamples.operator_auto = Returned r
    /\ Authentication.written r = Some data
    /\ data !! "password" = Some (Authentication.CStr stored)
    /\ decode_password stored
       = Returned (Authentication.password MoreSamples.operator_auto).
Proof.
  destruct (execute_stores_password (fun _ _ => true) MoreSamples.operator_auto
              eq_refl eq_refl)
    as (r & data & stored & Hexec & Hwritten & Hpassword & Hdecode & _).
  exists r, data, stored. by split_and!.
Defined.

Lemma execute_failure_witness :
  exists r,
    Authentication.execute (fun _ _ => false) MoreSamples.operator_auto = Returned r
    /\ Authentication.written r = None.
Proof.
  destruct (proj2 (execute_failure (fun _ _ => false) MoreSamples.operator_auto)
              eq_refl)
    as (r & Hexec & Hwritten & _).
  exists r. by split.
Defined.
